(** * toolbox_az.general.flags: the layered argument resolver

    A shallow embedding of [src/toolbox_az/general/flags.py]: the three
    format probes ([try_pickle_parse], [try_yml_parse], [try_json_parse])
    and [process_dict], the class [MyArguments] (file-reference expansion,
    the default namespace, [parse_args], the lazy attribute hook) and the
    [SingletonDecorator] behind [Flags].

    Python objects are modelled by the inductive [pyval]; exceptions by the
    enumeration [exn]; a method of [MyArguments] is a function from the
    instance to an outcome and the instance as the method leaves it, so the
    mutations made before an exception is raised stay visible after it.
    The libraries the module calls ([pickle], [yaml], [json], the file
    system, [sys.argv]) are gathered in the record [Host]; the part of
    [argparse.ArgumentParser] that the module inherits is modelled in the
    module [Argparse]. *)

From Stdlib Require Import String Ascii List Bool ZArith Lia.
Import ListNotations.
Open Scope string_scope.

(** ** Exceptions and outcomes *)

Inductive exn : Type :=
| ValueError
| TypeError
| UnicodeDecodeError
| UnpicklingError
| EOFError
| ImportError
| ScannerError
| ParserError
| OSError
| FileNotFoundError
| IndexError
| KeyError
| AttributeError
| RecursionError
| ArgumentError
| SystemExit.

Scheme Equality for exn.

(** [isinstance_exn e c]: an exception of class [e] is caught by a clause
    [except c].  [FileNotFoundError] derives from [OSError] and
    [UnicodeDecodeError] from [ValueError]. *)
Definition isinstance_exn (e c : exn) : bool :=
  exn_beq e c ||
  match e, c with
  | FileNotFoundError, OSError => true
  | UnicodeDecodeError, ValueError => true
  | _, _ => false
  end.

Definition caught (classes : list exn) (e : exn) : bool :=
  existsb (isinstance_exn e) classes.

Inductive result (A : Type) : Type :=
| Ok (a : A)
| Raise (e : exn).

Arguments Ok {A} a.
Arguments Raise {A} e.

Definition rbind {A B} (r : result A) (k : A -> result B) : result B :=
  match r with
  | Ok a => k a
  | Raise e => Raise e
  end.

(** [try_except body classes handler] is
    [try: body  except classes: handler]. *)
Definition try_except {A} (body : result A) (classes : list exn)
    (handler : result A) : result A :=
  match body with
  | Ok a => Ok a
  | Raise e => if caught classes e then handler else Raise e
  end.

Declare Scope py_scope.
Delimit Scope py_scope with py.
Notation "x <-- c ; k" := (rbind c (fun x => k))
  (at level 61, c at next level, right associativity) : py_scope.

(** ** Association lists

    A Python [dict] and the [__dict__] of a [Namespace] keep their entries
    in insertion order; assigning to a key that is present replaces the
    value in place. *)

Section Assoc.
Context {K V : Type}.
Variable eqb : K -> K -> bool.

Fixpoint assoc_get (k : K) (d : list (K * V)) : option V :=
  match d with
  | [] => None
  | (k', v) :: r => if eqb k k' then Some v else assoc_get k r
  end.

Fixpoint assoc_set (k : K) (v : V) (d : list (K * V)) : list (K * V) :=
  match d with
  | [] => [(k, v)]
  | (k', v') :: r =>
      if eqb k k' then (k', v) :: r else (k', v') :: assoc_set k v r
  end.

Definition assoc_mem (k : K) (d : list (K * V)) : bool :=
  match assoc_get k d with Some _ => true | None => false end.

(** [d.update(d2)] *)
Definition assoc_update (d d2 : list (K * V)) : list (K * V) :=
  fold_left (fun acc kv => assoc_set (fst kv) (snd kv) acc) d2 d.
End Assoc.

(** ** Python values *)

(** Hashable keys of a mapping.  [True] and [False] hash and compare as
    [1] and [0], so a Boolean key is a [KInt]. *)
Inductive pykey : Type :=
| KNone
| KInt (z : Z)
| KStr (s : string).

Definition key_eqb (a b : pykey) : bool :=
  match a, b with
  | KNone, KNone => true
  | KInt x, KInt y => Z.eqb x y
  | KStr x, KStr y => String.eqb x y
  | _, _ => false
  end.

#[local] Set Warnings "-register-all".

Inductive pyval : Type :=
| PyNone
| PyBool (b : bool)
| PyInt (z : Z)
| PyStr (s : string)
| PyList (l : list pyval)
| PyDict (d : list (pykey * pyval))
| PyNamespace (attrs : list (string * pyval)).

Definition pydict : Type := list (pykey * pyval).

(** The [__dict__] of an [argparse.Namespace]. *)
Definition namespace : Type := list (string * pyval).

(** Truth value of an object in a condition ([if x:], [if not x:]).
    [Namespace] defines neither [__bool__] nor [__len__], so every
    namespace, the empty one included, is true. *)
Definition truthy (v : pyval) : bool :=
  match v with
  | PyNone => false
  | PyBool b => b
  | PyInt z => negb (Z.eqb z 0)
  | PyStr s => negb (String.eqb s "")
  | PyList l => match l with [] => false | _ => true end
  | PyDict d => match d with [] => false | _ => true end
  | PyNamespace _ => true
  end.

Definition is_dict (v : pyval) : bool :=
  match v with PyDict _ => true | _ => false end.

Definition is_namespace (v : pyval) : bool :=
  match v with PyNamespace _ => true | _ => false end.

Definition dict_get (k : string) (d : pydict) : option pyval :=
  assoc_get key_eqb (KStr k) d.

Definition ns_get (k : string) (n : namespace) : option pyval :=
  assoc_get String.eqb k n.

Definition ns_set (k : string) (v : pyval) (n : namespace) : namespace :=
  assoc_set String.eqb k v n.

Definition hasattr (n : namespace) (k : string) : bool :=
  assoc_mem String.eqb k n.

(** [dict(...)[k] = v] needs a hashable [k]: lists, dicts and namespaces
    are not (a class that defines [__eq__] without [__hash__], as
    [Namespace] does, is unhashable). *)
Definition key_of (v : pyval) : result pykey :=
  match v with
  | PyNone => Ok KNone
  | PyBool b => Ok (KInt (if b then 1 else 0))
  | PyInt z => Ok (KInt z)
  | PyStr s => Ok (KStr s)
  | _ => Raise TypeError
  end.

Definition val_of_key (k : pykey) : pyval :=
  match k with
  | KNone => PyNone
  | KInt z => PyInt z
  | KStr s => PyStr s
  end.

(** The elements [iter(v)] yields; [TypeError] for an object that is not
    iterable. *)
Definition iterate (v : pyval) : result (list pyval) :=
  match v with
  | PyStr s => Ok (map (fun c => PyStr (String c "")) (list_ascii_of_string s))
  | PyList l => Ok l
  | PyDict d => Ok (map (fun kv => val_of_key (fst kv)) d)
  | _ => Raise TypeError
  end.

(** [d.update(items)] for a sequence of key/value pairs.  Every element
    must itself be a sequence of length two; the pairs before a faulty
    element have been stored by the time the exception is raised. *)
Fixpoint update_pairs (d : pydict) (items : list pyval)
    : result unit * pydict :=
  match items with
  | [] => (Ok tt, d)
  | it :: rest =>
      match iterate it with
      | Raise _ => (Raise TypeError, d)
      | Ok [k; v] =>
          match key_of k with
          | Ok k' => update_pairs (assoc_set key_eqb k' v d) rest
          | Raise e => (Raise e, d)
          end
      | Ok _ => (Raise ValueError, d)
      end
  end.

(** [d.update(v)] for an arbitrary object [v]: a mapping is merged, any
    other object is iterated as a sequence of pairs. *)
Definition dict_update_from (d : pydict) (v : pyval) : result unit * pydict :=
  match v with
  | PyDict d2 => (Ok tt, assoc_update key_eqb d d2)
  | _ =>
      match iterate v with
      | Raise e => (Raise e, d)
      | Ok items => update_pairs d items
      end
  end.

(** [Namespace] called with the entries of [d] as keyword arguments:
    keyword names must be strings; each becomes an attribute. *)
Fixpoint Namespace_kwargs (d : pydict) : result namespace :=
  match d with
  | [] => Ok []
  | (KStr k, v) :: r =>
      match Namespace_kwargs r with
      | Ok n => Ok ((k, v) :: n)
      | Raise e => Raise e
      end
  | _ :: _ => Raise TypeError
  end.

(** ** The host: files and the decoding libraries

    [files p] is the content of the file at path [p], if it exists.
    [pickle_load] and [yaml_load] stand for [pickle.load] and [yaml.load]
    on the content of an opened file; [json_decode] is what the JSON
    decoder makes of a text.  [argv] is [sys.argv[1:]]. *)
Record Host : Type := {
  files : string -> option string;
  pickle_load : string -> result pyval;
  yaml_load : string -> result pyval;
  json_decode : string -> result pyval;
  argv : list string
}.

(** [open(path)]: a missing file raises [FileNotFoundError]. *)
Definition open_file (H : Host) (path : string) : result string :=
  match files H path with
  | Some content => Ok content
  | None => Raise FileNotFoundError
  end.

(** What a caller may hand to [json.loads]: a text, or something else;
    here the something else is an open file object.  [json.loads] raises
    [TypeError] for whatever is not a [str], [bytes] or [bytearray]. *)
Inductive json_arg : Type :=
| JText (s : string)
| JFileObject (path : string).

Definition json_loads (H : Host) (a : json_arg) : result pyval :=
  match a with
  | JText s => json_decode H s
  | JFileObject _ => Raise TypeError
  end.

(** ** The format probes *)

Section Probes.
Variable H : Host.
Local Open Scope py_scope.

Definition try_pickle_parse (file_path : string) : result pyval :=
  try_except
    (pickle_file <-- open_file H file_path;
     pickle_load H pickle_file)
    [ValueError; TypeError; UnpicklingError]
    (Ok PyNone).

Definition try_json_parse (file_path : string) : result pyval :=
  try_except
    (_ <-- open_file H file_path;
     json_loads H (JFileObject file_path))
    [ValueError; TypeError]
    (Ok PyNone).

Definition try_yml_parse (file_path : string) : result pyval :=
  try_except
    (yaml_file <-- open_file H file_path;
     parsed_dict <-- yaml_load H yaml_file;
     if negb (is_dict parsed_dict) then Ok PyNone else Ok parsed_dict)
    [ValueError; TypeError; ScannerError]
    (Ok PyNone).

Definition process_dict (dict_path : string) : result pyval :=
  parsed_dict <-- try_pickle_parse dict_path;
  parsed_dict <-- (if negb (truthy parsed_dict)
                   then try_yml_parse dict_path
                   else Ok parsed_dict);
  parsed_dict <-- (if negb (truthy parsed_dict)
                   then try_json_parse dict_path
                   else Ok parsed_dict);
  Ok parsed_dict.
End Probes.

(** ** Strings as Python sees them *)

(** [s[0]]: indexing the empty string raises [IndexError]. *)
Definition first_char (s : string) : result string :=
  match s with
  | EmptyString => Raise IndexError
  | String c _ => Ok (String c "")
  end.

(** [s[1:]] *)
Definition drop_first (s : string) : string :=
  match s with
  | EmptyString => ""
  | String _ r => r
  end.

(** [c in chars] for a one-character string and a list of strings. *)
Definition str_in (c : string) (chars : list string) : bool :=
  existsb (String.eqb c) chars.

Definition is_line_boundary (c : ascii) : bool :=
  let n := nat_of_ascii c in
  (Nat.eqb n 10 || Nat.eqb n 11 || Nat.eqb n 12 || Nat.eqb n 13 ||
   Nat.eqb n 28 || Nat.eqb n 29 || Nat.eqb n 30 || Nat.eqb n 133)%bool.

(** [str.splitlines()]: the lines without their terminators; a carriage
    return followed by a line feed is one terminator, and a terminator at
    the very end opens no further line. *)
Fixpoint splitlines_from (cur s : string) : list string :=
  match s with
  | EmptyString => match cur with EmptyString => [] | _ => [cur] end
  | String c r =>
      if is_line_boundary c then
        match r with
        | String c' r' =>
            if (Nat.eqb (nat_of_ascii c) 13 && Nat.eqb (nat_of_ascii c') 10)%bool
            then cur :: splitlines_from "" r'
            else cur :: splitlines_from "" r
        | EmptyString => cur :: splitlines_from "" r
        end
      else splitlines_from (cur ++ String c "") r
  end.

Definition splitlines (s : string) : list string := splitlines_from "" s.

Definition lower_ascii (c : ascii) : ascii :=
  let n := nat_of_ascii c in
  if (Nat.leb 65 n && Nat.leb n 90)%bool then ascii_of_nat (n + 32) else c.

(** [s.lower()] on text in the ASCII range. *)
Fixpoint lower (s : string) : string :=
  match s with
  | EmptyString => EmptyString
  | String c r => String (lower_ascii c) (lower r)
  end.

(** [sub in s] for two strings. *)
Definition contains (sub s : string) : bool :=
  match String.index 0 sub s with Some _ => true | None => false end.

(** ** The resolver instance *)

(** One declared parameter: [add_argument("--" + dest, dest=dest,
    type=type_, default=default)], an optional flag that stores the one
    value that follows it.  [type_ s = None] stands for a conversion that
    rejects the text [s]. *)
Record action : Type := {
  dest : string;
  type_ : string -> option pyval;
  default : pyval
}.

(** An attribute of the cached namespace: a value, or the cached namespace
    object itself (see [setattr_args]). *)
Inductive attr : Type :=
| Val (v : pyval)
| Self.

Definition cached_namespace : Type := list (string * attr).

(** The attributes of a [MyArguments] instance that the module reads or
    writes; [actions] is the inherited list of declared parameters. *)
Record MyArguments : Type := {
  args : option cached_namespace;
  fromfile_prefix_chars : list string;
  is_jupyter_notebook : bool;
  config_files_data : pydict;
  actions : list action
}.

Definition set_args (a : option cached_namespace) (self : MyArguments) :=
  {| args := a;
     fromfile_prefix_chars := fromfile_prefix_chars self;
     is_jupyter_notebook := is_jupyter_notebook self;
     config_files_data := config_files_data self;
     actions := actions self |}.

Definition set_config_files_data (d : pydict) (self : MyArguments) :=
  {| args := args self;
     fromfile_prefix_chars := fromfile_prefix_chars self;
     is_jupyter_notebook := is_jupyter_notebook self;
     config_files_data := d;
     actions := actions self |}.

Definition set_actions (l : list action) (self : MyArguments) :=
  {| args := args self;
     fromfile_prefix_chars := fromfile_prefix_chars self;
     is_jupyter_notebook := is_jupyter_notebook self;
     config_files_data := config_files_data self;
     actions := l |}.

(** A method: the instance goes in, an outcome and the instance as the
    method left it come out. *)
Definition M (A : Type) : Type := MyArguments -> result A * MyArguments.

Definition ret {A} (a : A) : M A := fun self => (Ok a, self).

Definition raise {A} (e : exn) : M A := fun self => (Raise e, self).

Definition bind {A B} (c : M A) (k : A -> M B) : M B :=
  fun self =>
    match c self with
    | (Ok a, self') => k a self'
    | (Raise e, self') => (Raise e, self')
    end.

Definition lift {A} (r : result A) : M A := fun self => (r, self).

Definition get : M MyArguments := fun self => (Ok self, self).

Notation "x <- c ;; k" := (bind c (fun x => k))
  (at level 61, c at next level, right associativity) : py_scope.

(** ** The inherited parser

    The part of [argparse.ArgumentParser] that [MyArguments] relies on, for
    a parser whose declared parameters are all of the shape of [action].
    [parse_args] installs the defaults the start namespace lacks, expands
    file references through the [_read_args_from_files] of the instance
    (passed in as [read], since [MyArguments] overrides it), consumes the
    tokens from left to right, and finally passes through its type every
    string default that still stands.  A usage error prints a message and
    leaves through [SystemExit].

    The token grammar is the exact-match fragment: a flag is spelt out in
    full and followed by a value that does not start with a dash.
    [argparse] accepts further spellings (a unique prefix of a flag,
    [--flag=value], a negative number as value, the [--] separator) which
    this model turns down with the usage error. *)
Module Argparse.
Local Open Scope py_scope.

Definition option_string (a : action) : string := "--" ++ dest a.

Definition find_action (acts : list action) (t : string) : option action :=
  find (fun a => String.eqb (option_string a) t) acts.

Definition is_value_token (t : string) : bool :=
  match t with
  | EmptyString => true
  | String c _ => negb (Ascii.eqb c "-")
  end.

(** Defaults for the parameters the namespace does not have yet. *)
Definition add_defaults (acts : list action) (ns : namespace) : namespace :=
  fold_left
    (fun n a => if hasattr n (dest a) then n
                else ns_set (dest a) (default a) n)
    acts ns.

(** The store actions, token by token; [seen] collects the parameters
    that received a value. *)
Fixpoint consume_tokens (acts : list action) (ns : namespace)
    (seen : list string) (tokens : list string)
    : result (namespace * list string) :=
  match tokens with
  | [] => Ok (ns, seen)
  | t :: rest =>
      if String.eqb t "--" then Raise SystemExit else
      match find_action acts t with
      | None => Raise SystemExit
      | Some a =>
          match rest with
          | [] => Raise SystemExit
          | v :: rest' =>
              if is_value_token v then
                match type_ a v with
                | Some x =>
                    consume_tokens acts (ns_set (dest a) x ns)
                      (dest a :: seen) rest'
                | None => Raise SystemExit
                end
              else Raise SystemExit
          end
      end
  end.

(** A parameter no token set, whose value is still the string default
    installed by [add_defaults] (that is: the start namespace [ns0] did
    not have it), gets that string converted by its type. *)
Fixpoint convert_defaults (acts : list action) (ns0 : namespace)
    (seen : list string) (ns : namespace) : result namespace :=
  match acts with
  | [] => Ok ns
  | a :: r =>
      match default a with
      | PyStr s =>
          if (str_in (dest a) seen || hasattr ns0 (dest a))%bool
          then convert_defaults r ns0 seen ns
          else
            match type_ a s with
            | Some x => convert_defaults r ns0 seen (ns_set (dest a) x ns)
            | None => Raise SystemExit
            end
      | _ => convert_defaults r ns0 seen ns
      end
  end.

(** [ArgumentParser.parse_args(self, args=argl, namespace=ns)] *)
Definition parse_args (read : list string -> M (list string))
    (argl : list string) (ns : option namespace) : M namespace :=
  self <- get ;;
  let ns0 := match ns with Some n => n | None => [] end in
  let ns1 := add_defaults (actions self) ns0 in
  arg_strings <- read argl ;;
  lift (r <-- consume_tokens (actions self) ns1 [] arg_strings;
        convert_defaults (actions self) ns0 (snd r) (fst r)).

(** [add_argument]: a flag that is already declared is a conflict. *)
Definition add_argument (a : action) : M unit :=
  fun self =>
    match find_action (actions self) (option_string a) with
    | Some _ => (Raise ArgumentError, self)
    | None => (Ok tt, set_actions (actions self ++ [a])%list self)
    end.
End Argparse.

(** ** class MyArguments *)

Section Methods.
Variable H : Host.
Local Open Scope py_scope.

(** [MyArguments.__init__(self, fromfile_prefix_chars)] *)
Definition init (prefix_chars : option (list string)) : MyArguments :=
  let prefix_chars :=
    match prefix_chars with
    | None => ["@"]
    | Some l => l
    end in
  {| args := None;
     fromfile_prefix_chars := prefix_chars;
     is_jupyter_notebook :=
       existsb (fun arg => contains "jupyter" (lower arg)) (argv H);
     config_files_data := [];
     actions := [] |}.

(** [convert_arg_line_to_args], inherited: the line is one token. *)
Definition convert_arg_line_to_args (arg_line : string) : list string :=
  [arg_line].

(** [_expand_arg_strings_from_file]; [read] is the recursive call to
    [_read_args_from_files], and the list returned is [new_arg_strings]
    after the call.  The file is opened before the [try] block, so a
    failure to open it is not turned into a usage error here. *)
Definition _expand_arg_strings_from_file
    (read : list string -> M (list string))
    (config_file_path : string) (new_arg_strings : list string)
    : M (list string) :=
  config_file <- lift (open_file H config_file_path) ;;
  let arg_strings :=
    flat_map convert_arg_line_to_args (splitlines config_file) in
  fun self =>
    match read arg_strings self with
    | (Ok arg_strings, self') =>
        (Ok (new_arg_strings ++ arg_strings)%list, self')
    | (Raise e, self') =>
        if isinstance_exn e OSError then (Raise SystemExit, self')
        else (Raise e, self')
    end.

(** [self.config_files_data.update(v)] *)
Definition update_config_files_data (v : pyval) : M unit :=
  fun self =>
    let (r, d) := dict_update_from (config_files_data self) v in
    (r, set_config_files_data d self).

(** [arg_string[0] in chars], asked of a string that is not empty. *)
Definition starts_with_marker (chars : list string) (arg_string : string)
    : bool :=
  match first_char arg_string with
  | Ok c => str_in c chars
  | Raise _ => false
  end.

(** The loop of [_read_args_from_files]. *)
Fixpoint read_loop (read : list string -> M (list string))
    (arg_strings new_arg_strings : list string) : M (list string) :=
  match arg_strings with
  | [] => ret new_arg_strings
  | arg_string :: rest =>
      self <- get ;;
      if (negb (truthy (PyStr arg_string)) ||
          negb (starts_with_marker (fromfile_prefix_chars self) arg_string))%bool
      then read_loop read rest (new_arg_strings ++ [arg_string])%list
      else
        let config_file_path := drop_first arg_string in
        config_file_args <- lift (process_dict H config_file_path) ;;
        if truthy config_file_args then
          _ <- update_config_files_data config_file_args ;;
          read_loop read rest new_arg_strings
        else
          new_arg_strings <-
            _expand_arg_strings_from_file read config_file_path
              new_arg_strings ;;
          read_loop read rest new_arg_strings
  end.

(** [_read_args_from_files].  [fuel] bounds how deep file references may
    nest; the interpreter gives up on deeper (for instance cyclic)
    references with [RecursionError]. *)
Fixpoint _read_args_from_files (fuel : nat) (arg_strings : list string)
    : M (list string) :=
  read_loop
    (match fuel with
     | O => fun _ => raise RecursionError
     | S fuel' => _read_args_from_files fuel'
     end)
    arg_strings [].

(** [process_default_namespace] *)
Definition process_default_namespace (namespace_or_dict_args : pyval)
    : M (option namespace) :=
  _ <- (if truthy namespace_or_dict_args then
          match namespace_or_dict_args with
          | PyNamespace attrs =>
              match ns_get "_get_kwarg" attrs with
              | Some kw => update_config_files_data kw
              | None => raise AttributeError
              end
          | PyDict _ => update_config_files_data namespace_or_dict_args
          | _ => raise TypeError
          end
        else ret tt) ;;
  self <- get ;;
  if truthy (PyDict (config_files_data self)) then
    n <- lift (Namespace_kwargs (config_files_data self)) ;;
    ret (Some n)
  else ret None.

(** [[arg for arg in args if arg[0] in chars]] when [keep] is [true],
    and with [not in] when it is [false]. *)
Fixpoint select_args (keep : bool) (chars : list string)
    (argl : list string) : result (list string) :=
  match argl with
  | [] => Ok []
  | arg :: rest =>
      c <-- first_char arg;
      r <-- select_args keep chars rest;
      Ok (if Bool.eqb (str_in c chars) keep then arg :: r else r)
  end.

(** The loop over [config_files_args]: each file reference is parsed on
    its own, and the namespace that parse returns is dropped. *)
Fixpoint parse_config_files (fuel : nat) (config_files_args : list string)
    : M unit :=
  match config_files_args with
  | [] => ret tt
  | config_file :: rest =>
      _ <- Argparse.parse_args (_read_args_from_files fuel)
             [config_file] None ;;
      parse_config_files fuel rest
  end.

(** [self.args = ns], through [MyArguments.__setattr__]: once the
    attribute is set, a parsed parameter that is itself called [args] is
    overwritten with the value assigned, which is the namespace.
    [cached_of ns] is the namespace object after the assignment. *)
Definition cached_of (ns : namespace) : cached_namespace :=
  let cached := map (fun kv => (fst kv, Val (snd kv))) ns in
  if assoc_mem String.eqb "args" cached
  then assoc_set String.eqb "args" Self cached
  else cached.

Definition setattr_args (ns : namespace) : M unit :=
  fun self => (Ok tt, set_args (Some (cached_of ns)) self).

(** [parse_args(self, args, namespace_or_dict_args)] *)
Definition parse_args (fuel : nat) (argl : option (list string))
    (namespace_or_dict_args : pyval) : M cached_namespace :=
  self <- get ;;
  let argl :=
    match argl with
    | None => if is_jupyter_notebook self then [] else argv H
    | Some l => l
    end in
  config_files_args <-
    lift (select_args true (fromfile_prefix_chars self) argl) ;;
  other_args <-
    lift (select_args false (fromfile_prefix_chars self) argl) ;;
  _ <- parse_config_files fuel config_files_args ;;
  default_namespace <- process_default_namespace namespace_or_dict_args ;;
  ns <- Argparse.parse_args (_read_args_from_files fuel)
          other_args default_namespace ;;
  _ <- setattr_args ns ;;
  self <- get ;;
  match args self with
  | Some cached => ret cached
  | None => raise AttributeError
  end.

(** [self.args.__dict__[name]] *)
Definition lookup_cached (name : string) : M attr :=
  self <- get ;;
  match args self with
  | None => raise AttributeError
  | Some cached =>
      match assoc_get String.eqb name cached with
      | Some a => ret a
      | None => raise KeyError
      end
  end.

(** [__getattr__(self, name)], the hook for a name that ordinary
    attribute lookup does not find. *)
Definition __getattr__ (fuel : nat) (name : string) : M attr :=
  self <- get ;;
  _ <- (match args self with
        | None => _ <- parse_args fuel None PyNone ;; ret tt
        | Some _ => ret tt
        end) ;;
  lookup_cached name.

(** [get_argument_dict] *)
Definition get_argument_dict (fuel : nat) : M cached_namespace :=
  self <- get ;;
  _ <- (match args self with
        | None => _ <- parse_args fuel None PyNone ;; ret tt
        | Some _ => ret tt
        end) ;;
  self <- get ;;
  match args self with
  | Some cached => ret cached
  | None => raise AttributeError
  end.
End Methods.

(** ** SingletonDecorator and Flags *)

(** The objects of the process: [objects] are the instances created so
    far, an instance being named by its position; [instance] is the
    attribute of the decorator object. *)
Record SingletonDecorator : Type := {
  objects : list MyArguments;
  instance : option nat
}.

(** [Flags = SingletonDecorator(MyArguments)] at import time. *)
Definition Flags_start : SingletonDecorator :=
  {| objects := []; instance := None |}.

(** [SingletonDecorator.__call__], for [klass = MyArguments]: the object
    returned, and the process after the call. *)
Definition Flags (H : Host) (prefix_chars : option (list string))
    (p : SingletonDecorator) : nat * SingletonDecorator :=
  match instance p with
  | None =>
      let o := length (objects p) in
      (o, {| objects := (objects p ++ [init H prefix_chars])%list;
             instance := Some o |})
  | Some o => (o, p)
  end.

(** ** Notions used in the statements *)

(** What no method of the resolver but the final assignment of
    [parse_args] touches: everything except [config_files_data]. *)
Definition same_config (s s' : MyArguments) : Prop :=
  args s' = args s /\
  fromfile_prefix_chars s' = fromfile_prefix_chars s /\
  is_jupyter_notebook s' = is_jupyter_notebook s /\
  actions s' = actions s.

Definition frames {A} (c : M A) : Prop :=
  forall self r self', c self = (r, self') -> same_config self self'.

(** The marker-prefixed tokens of an invocation, and the other ones. *)
Definition marker_tokens (self : MyArguments) (argl : list string)
    : list string :=
  filter (starts_with_marker (fromfile_prefix_chars self)) argl.

Definition plain_tokens (self : MyArguments) (argl : list string)
    : list string :=
  filter (fun t => negb (starts_with_marker (fromfile_prefix_chars self) t))
    argl.



(** The entries an overrides object contributes: those of a dict (a key
    written twice keeps its last value), none otherwise. *)
Definition overrides_layer (ov : pyval) : pydict :=
  match ov with
  | PyDict d => assoc_update key_eqb [] d
  | _ => []
  end.

(** The entries the mapping files of an invocation contribute, later files
    overwriting earlier ones. *)
Definition merge_mapping_file (H : Host) (acc : pydict) (t : string)
    : pydict :=
  match process_dict H (drop_first t) with
  | Ok (PyDict d) => assoc_update key_eqb acc d
  | _ => acc
  end.



(** A token that refers to a mapping file. *)
Definition mapping_reference (H : Host) (t : string) : Prop :=
  exists d, d <> [] /\ process_dict H (drop_first t) = Ok (PyDict d).

(** The tokens an invocation of [parse_args] works on. *)
Definition invocation_tokens (H : Host) (argl : option (list string))
    (self : MyArguments) : list string :=
  match argl with
  | None => if is_jupyter_notebook self then [] else argv H
  | Some l => l
  end.

(** [parse_args] up to, and without, its final assignment to
    [self.args]. *)
Definition resolve_phase (H : Host) (fuel : nat) (argl : option (list string))
    (namespace_or_dict_args : pyval) : M namespace :=
  (self <- get ;;
   let argl :=
     match argl with
     | None => if is_jupyter_notebook self then [] else argv H
     | Some l => l
     end in
   config_files_args <-
     lift (select_args true (fromfile_prefix_chars self) argl) ;;
   other_args <-
     lift (select_args false (fromfile_prefix_chars self) argl) ;;
   _ <- parse_config_files H fuel config_files_args ;;
   default_namespace <- process_default_namespace namespace_or_dict_args ;;
   Argparse.parse_args (_read_args_from_files H fuel)
     other_args default_namespace)%py.

(** ** A small installation to run the model on

    Two parameters, [--rate] and [--mode], of the default (string) type;
    a YAML mapping file, a JSON mapping file indented with a tab (which
    the YAML scanner refuses), a file of tokens, and an empty file. *)

Definition str_type (s : string) : option pyval := Some (PyStr s).

Definition newline : string := String (ascii_of_nat 10) "".
Definition tab : string := String (ascii_of_nat 9) "".

Definition cfg_yaml : string := "rate: 5".
Definition dquote : string := String (ascii_of_nat 34) "".
Definition cfg_json : string :=
  "{" ++ newline ++ tab ++ dquote ++ "rate" ++ dquote ++ ": 5"
      ++ newline ++ "}".
Definition args_txt : string := "--rate" ++ newline ++ "9" ++ newline.

Definition demo_files (path : string) : option string :=
  if String.eqb path "cfg.yaml" then Some cfg_yaml
  else if String.eqb path "cfg.json" then Some cfg_json
  else if String.eqb path "args.txt" then Some args_txt
  else if String.eqb path "empty" then Some ""
  else None.

Definition demo_host : Host :=
  {| files := demo_files;
     pickle_load := fun c =>
       if String.eqb c "" then Raise EOFError else Raise UnpicklingError;
     yaml_load := fun c =>
       if String.eqb c cfg_yaml then Ok (PyDict [(KStr "rate", PyInt 5)])
       else if String.eqb c cfg_json then Raise ScannerError
       else Ok (PyStr c);
     json_decode := fun c =>
       if String.eqb c cfg_json then Ok (PyDict [(KStr "rate", PyInt 5)])
       else Raise ValueError;
     argv := [] |}.

Definition rate_action : action :=
  {| dest := "rate"; type_ := str_type; default := PyStr "0.1" |}.

Definition mode_action : action :=
  {| dest := "mode"; type_ := str_type; default := PyStr "train" |}.

Definition demo_parser : MyArguments :=
  set_actions [rate_action; mode_action] (init demo_host None).

(** ** Attribute assignment from outside

    [MyArguments.__setattr__] first stores the attribute the ordinary way
    and then, once a result is cached, copies the value into the cached
    namespace if that has an entry of the same name.  [own] holds the
    attributes stored the ordinary way that are not fields of
    [MyArguments] above; assignments to those fields themselves ([args],
    [config_files_data], ...) are not covered, and [__setattr__] answers
    [None] for them. *)
Record Instance : Type := {
  resolver : MyArguments;
  own : list (string * pyval)
}.

Definition field_names : list string :=
  ["args"; "fromfile_prefix_chars"; "is_jupyter_notebook";
   "config_files_data"; "_actions"].

Definition __setattr__ (name : string) (value : pyval) (o : Instance)
    : option Instance :=
  if str_in name field_names then None
  else
    let own' := assoc_set String.eqb name value (own o) in
    match args (resolver o) with
    | Some cached =>
        if assoc_mem String.eqb name cached
        then Some {| resolver :=
                       set_args
                         (Some (assoc_set String.eqb name (Val value) cached))
                         (resolver o);
                     own := own' |}
        else Some {| resolver := resolver o; own := own' |}
    | None => Some {| resolver := resolver o; own := own' |}
    end.

(** ** Several construction calls in a row *)

(** The objects returned by the calls [Flags(a)] for [a] in [calls], in
    order, and the process after the last one. *)
Fixpoint Flags_calls (H : Host) (calls : list (option (list string)))
    (p : SingletonDecorator) : list nat * SingletonDecorator :=
  match calls with
  | [] => ([], p)
  | a :: rest =>
      let (o, p1) := Flags H a p in
      let (os, p2) := Flags_calls H rest p1 in
      (o :: os, p2)
  end.

(** ** Further notions used in the statements *)

(** Every key of the config data of [s] is still a key in [s']. *)
Definition keeps_keys (s s' : MyArguments) : Prop :=
  forall k, assoc_mem key_eqb k (config_files_data s) = true ->
            assoc_mem key_eqb k (config_files_data s') = true.

(** A token that starts with no marker (the empty token is one). *)
Definition plain (self : MyArguments) (t : string) : Prop :=
  starts_with_marker (fromfile_prefix_chars self) t = false.

(** A token that refers to a file of tokens: the file exists and no probe
    makes a mapping (or anything else that counts as true) of it. *)
Definition token_file_reference (H : Host) (t content : string) : Prop :=
  files H (drop_first t) = Some content /\
  exists v, process_dict H (drop_first t) = Ok v /\ truthy v = false.

(** What a loop that had already collected [new] returns, given what it
    returns when it starts with nothing. *)
Definition with_prefix (new : list string)
    (r : result (list string) * MyArguments)
    : result (list string) * MyArguments :=
  match r with
  | (Ok l, s) => (Ok (new ++ l)%list, s)
  | (Raise e, s) => (Raise e, s)
  end.

(** The function [_read_args_from_files] calls itself through when it
    has [fuel] levels of nesting left. *)
Definition recursive_read (H : Host) (fuel : nat)
    : list string -> M (list string) :=
  match fuel with
  | O => fun _ => raise RecursionError
  | S fuel' => _read_args_from_files H fuel'
  end.

(** [keeps R c]: whatever its outcome, the method [c] takes an instance
    to one related to it by [R]. *)
Definition keeps (R : MyArguments -> MyArguments -> Prop) {A} (c : M A)
    : Prop :=
  forall self r self', c self = (r, self') -> R self self'.

(** * Facts about the model *)

(** ** Association lists *)

Section AssocFacts.
Context {K V : Type}.
Variable eqb : K -> K -> bool.
Hypothesis eqb_spec : forall a b, eqb a b = true <-> a = b.

Local Abbreviation assoc_get := (@assoc_get K V eqb).
Local Abbreviation assoc_set := (@assoc_set K V eqb).
Local Abbreviation assoc_mem := (@assoc_mem K V eqb).
Local Abbreviation assoc_update := (@assoc_update K V eqb).

Lemma eqb_refl' k : eqb k k = true.
Proof. now apply eqb_spec. Qed.

Lemma eqb_neq k k' : k <> k' -> eqb k k' = false.
Proof.
  intros N. destruct (eqb k k') eqn:E; [|reflexivity].
  apply eqb_spec in E. contradiction.
Qed.

Lemma assoc_get_set_same k v d : assoc_get k (assoc_set k v d) = Some v.
Proof.
  induction d as [|[k' v'] r IH]; simpl.
  - now rewrite eqb_refl'.
  - destruct (eqb k k') eqn:E; simpl; rewrite E; [reflexivity|exact IH].
Qed.

Lemma assoc_get_set_other k k' v d :
  k <> k' -> assoc_get k (assoc_set k' v d) = assoc_get k d.
Proof.
  intros N. induction d as [|[k2 v2] r IH]; simpl.
  - now rewrite eqb_neq.
  - destruct (eqb k' k2) eqn:E; simpl.
    + apply eqb_spec in E. subst k2. now rewrite (eqb_neq k k').
    + destruct (eqb k k2); [reflexivity|exact IH].
Qed.

Lemma assoc_get_set k k' v d :
  assoc_get k (assoc_set k' v d) =
  if eqb k k' then Some v else assoc_get k d.
Proof.
  destruct (eqb k k') eqn:E.
  - apply eqb_spec in E. subst. apply assoc_get_set_same.
  - apply assoc_get_set_other. intros ->. now rewrite eqb_refl' in E.
Qed.

(** After [d.update(d2)] a key holds what [d2] gives it (the last
    binding, should the list repeat a key), and what [d] gave it
    otherwise. *)
Lemma assoc_get_update k d2 : forall d,
  assoc_get k (assoc_update d d2) =
  match assoc_get k (rev d2) with
  | Some v => Some v
  | None => assoc_get k d
  end.
Proof.
  unfold assoc_update.
  induction d2 as [|[k2 v2] r IH]; intros d; simpl.
  - reflexivity.
  - rewrite IH. clear IH.
    assert (G : forall l, assoc_get k (l ++ [(k2, v2)]) =
              match assoc_get k l with
              | Some v => Some v
              | None => if eqb k k2 then Some v2 else None
              end).
    { induction l as [|[a b] l IHl]; simpl.
      - reflexivity.
      - destruct (eqb k a); [reflexivity|exact IHl]. }
    rewrite G. destruct (assoc_get k (rev r)); [reflexivity|].
    rewrite assoc_get_set. destruct (eqb k k2); reflexivity.
Qed.

Lemma assoc_mem_set k k' v d :
  assoc_mem k (assoc_set k' v d) = eqb k k' || assoc_mem k d.
Proof.
  unfold assoc_mem. rewrite assoc_get_set.
  destruct (eqb k k'); reflexivity.
Qed.
End AssocFacts.

Lemma key_eqb_spec a b : key_eqb a b = true <-> a = b.
Proof.
  destruct a, b; simpl; split; intros H;
    try discriminate; try reflexivity.
  - apply Z.eqb_eq in H. now subst.
  - inversion H. apply Z.eqb_refl.
  - apply String.eqb_eq in H. now subst.
  - inversion H. apply String.eqb_refl.
Qed.

Lemma str_eqb_spec (a b : string) : String.eqb a b = true <-> a = b.
Proof. apply String.eqb_eq. Qed.


(** ** Outcomes of the method monad *)

Lemma bind_ok {A B} (c : M A) (k : A -> M B) self b self' :
  bind c k self = (Ok b, self') ->
  exists a s1, c self = (Ok a, s1) /\ k a s1 = (Ok b, self').
Proof.
  unfold bind. destruct (c self) as [[a|e] s1]; intros E.
  - now exists a, s1.
  - discriminate.
Qed.

Lemma bind_cases {A B} (c : M A) (k : A -> M B) self r self' :
  bind c k self = (r, self') ->
  (exists a s1, c self = (Ok a, s1) /\ k a s1 = (r, self')) \/
  (exists e, c self = (Raise e, self') /\ r = Raise e).
Proof.
  unfold bind. destruct (c self) as [[a|e] s1]; intros E.
  - left. now exists a, s1.
  - right. inversion E; subst. now exists e.
Qed.

Lemma same_config_refl s : same_config s s.
Proof. repeat split. Qed.

Lemma same_config_trans s1 s2 s3 :
  same_config s1 s2 -> same_config s2 s3 -> same_config s1 s3.
Proof.
  intros (A1 & B1 & C1 & D1) (A2 & B2 & C2 & D2).
  repeat split; congruence.
Qed.

Lemma same_config_data d s : same_config s (set_config_files_data d s).
Proof. repeat split. Qed.

Lemma frames_ret {A} (a : A) : frames (ret a).
Proof. intros s r s' E. inversion E. apply same_config_refl. Qed.

Lemma frames_raise {A} e : frames (@raise A e).
Proof. intros s r s' E. inversion E. apply same_config_refl. Qed.

Lemma frames_lift {A} (x : result A) : frames (lift x).
Proof. intros s r s' E. inversion E. apply same_config_refl. Qed.

Lemma frames_get : frames get.
Proof. intros s r s' E. inversion E. apply same_config_refl. Qed.

Lemma frames_bind {A B} (c : M A) (k : A -> M B) :
  frames c -> (forall a, frames (k a)) -> frames (bind c k).
Proof.
  intros Fc Fk s r s' E.
  destruct (bind_cases _ _ _ _ _ E) as [(a & s1 & E1 & E2)|(e & E1 & _)].
  - eapply same_config_trans; [eapply Fc|eapply Fk]; eassumption.
  - eapply Fc; eassumption.
Qed.

Lemma frames_update_config_files_data v : frames (update_config_files_data v).
Proof.
  intros s r s' E. unfold update_config_files_data in E.
  destruct (dict_update_from (config_files_data s) v) as [r0 d].
  inversion E. apply same_config_data.
Qed.

Create HintDb frames.

#[local] Hint Resolve frames_ret frames_raise frames_lift frames_get
  frames_update_config_files_data : frames.

Ltac frames_step :=
  first [ apply frames_bind; [|intros ?]
        | solve [auto with frames]
        | match goal with
          | |- frames (if ?b then _ else _) => destruct b
          | |- frames (match ?x with _ => _ end) => destruct x
          end ].

Lemma frames_expand H read path new :
  (forall l, frames (read l)) ->
  frames (_expand_arg_strings_from_file H read path new).
Proof.
  intros Fr. unfold _expand_arg_strings_from_file.
  apply frames_bind; [auto with frames|]. intros content s r s' E.
  destruct (read _ s) as [[l|e] s1] eqn:R.
  - inversion E; subst. eapply Fr; eassumption.
  - destruct (isinstance_exn e OSError); inversion E; subst;
      eapply Fr; eassumption.
Qed.

Lemma frames_read_loop H read :
  (forall l, frames (read l)) ->
  forall l new, frames (read_loop H read l new).
Proof.
  intros Fr. induction l as [|t rest IH]; intros new; simpl.
  - auto with frames.
  - apply frames_bind; [auto with frames|]. intros s.
    destruct (_ || _)%bool; [apply IH|].
    apply frames_bind; [auto with frames|]. intros v.
    destruct (truthy v).
    + apply frames_bind; [auto with frames|]. intros _. apply IH.
    + apply frames_bind; [now apply frames_expand|]. intros l. apply IH.
Qed.

Lemma frames_read_args_from_files H fuel :
  forall l, frames (_read_args_from_files H fuel l).
Proof.
  induction fuel as [|fuel IH]; intros l; simpl;
    apply frames_read_loop; [intros; apply frames_raise|exact IH].
Qed.

Lemma frames_argparse_parse_args read argl ns :
  (forall l, frames (read l)) -> frames (Argparse.parse_args read argl ns).
Proof.
  intros Fr. unfold Argparse.parse_args.
  repeat frames_step.
Qed.

Lemma frames_parse_config_files H fuel :
  forall l, frames (parse_config_files H fuel l).
Proof.
  induction l as [|t rest IH]; simpl; [auto with frames|].
  apply frames_bind; [|intros; apply IH].
  apply frames_argparse_parse_args, frames_read_args_from_files.
Qed.

Lemma frames_process_default_namespace v :
  frames (process_default_namespace v).
Proof.
  unfold process_default_namespace.
  apply frames_bind.
  - destruct (truthy v); [|auto with frames].
    destruct v; auto with frames.
    destruct (ns_get _ _); auto with frames.
  - intros _. repeat frames_step.
Qed.

(** ** The shape of [parse_args] *)

Lemma frames_resolve_phase H fuel argl ov :
  frames (resolve_phase H fuel argl ov).
Proof.
  unfold resolve_phase.
  apply frames_bind; [auto with frames|]. intros s.
  apply frames_bind; [auto with frames|]. intros cfg.
  apply frames_bind; [auto with frames|]. intros other.
  apply frames_bind; [apply frames_parse_config_files|]. intros _.
  apply frames_bind; [apply frames_process_default_namespace|]. intros dn.
  apply frames_argparse_parse_args, frames_read_args_from_files.
Qed.

Lemma parse_args_shape H fuel argl ov self :
  parse_args H fuel argl ov self =
  match resolve_phase H fuel argl ov self with
  | (Ok ns, s1) => (Ok (cached_of ns), set_args (Some (cached_of ns)) s1)
  | (Raise e, s1) => (Raise e, s1)
  end.
Proof.
  unfold parse_args, resolve_phase, bind, get, lift, setattr_args, ret.
  destruct (select_args true _ _) as [cfg|e]; [|reflexivity].
  destruct (select_args false _ _) as [other|e]; [|reflexivity].
  destruct (parse_config_files H fuel cfg self) as [[[]|e] s1];
    [|reflexivity].
  destruct (process_default_namespace ov s1) as [[dn|e] s2]; [|reflexivity].
  destruct (Argparse.parse_args _ other dn s2) as [[ns|e] s3]; reflexivity.
Qed.

(** ** Partitioning the tokens *)

Lemma select_args_empty_token keep chars l :
  In "" l -> select_args keep chars l = Raise IndexError.
Proof.
  induction l as [|t rest IH]; intros I; [destruct I|].
  simpl. destruct t as [|c t'].
  - reflexivity.
  - destruct I as [I|I]; [discriminate|].
    simpl. now rewrite (IH I).
Qed.

Lemma select_args_filter keep chars l :
  ~ In "" l ->
  select_args keep chars l =
  Ok (filter (fun t => Bool.eqb (starts_with_marker chars t) keep) l).
Proof.
  induction l as [|t rest IH]; intros N; [reflexivity|].
  simpl. destruct t as [|c t'].
  - exfalso. apply N. now left.
  - simpl. rewrite IH by (intros I; apply N; now right).
    reflexivity.
Qed.

Lemma select_markers self l :
  ~ In "" l ->
  select_args true (fromfile_prefix_chars self) l = Ok (marker_tokens self l).
Proof.
  intros N. rewrite select_args_filter by exact N.
  unfold marker_tokens. f_equal. apply filter_ext.
  intros t. now destruct (starts_with_marker _ t).
Qed.

Lemma select_plain self l :
  ~ In "" l ->
  select_args false (fromfile_prefix_chars self) l = Ok (plain_tokens self l).
Proof.
  intros N. rewrite select_args_filter by exact N.
  reflexivity.
Qed.

Lemma resolve_phase_tokens H fuel argl ov self :
  resolve_phase H fuel argl ov self =
  resolve_phase H fuel (Some (invocation_tokens H argl self)) ov self.
Proof. reflexivity. Qed.

(** With no empty token, [parse_args] is the config-file pass over the
    marker tokens, then the default namespace, then the parse of the
    other tokens. *)
Lemma resolve_phase_steps H fuel argl ov self :
  ~ In "" (invocation_tokens H argl self) ->
  resolve_phase H fuel argl ov self =
  bind (parse_config_files H fuel
          (marker_tokens self (invocation_tokens H argl self)))
    (fun _ =>
       bind (process_default_namespace ov)
         (fun default_namespace =>
            Argparse.parse_args (_read_args_from_files H fuel)
              (plain_tokens self (invocation_tokens H argl self))
              default_namespace)) self.
Proof.
  intros N. rewrite resolve_phase_tokens.
  unfold resolve_phase.
  unfold bind at 1. unfold get at 1. cbv beta iota.
  rewrite (select_markers self _ N).
  unfold bind at 1. unfold lift at 1. cbv beta iota.
  rewrite (select_plain self _ N).
  unfold bind at 1. unfold lift at 1. cbv beta iota.
  reflexivity.
Qed.

(** ** The overrides argument *)


Lemma process_default_namespace_bad_type v self :
  truthy v = true -> is_namespace v = false -> is_dict v = false ->
  process_default_namespace v self = (Raise TypeError, self).
Proof.
  intros T N D. unfold process_default_namespace. rewrite T.
  destruct v; try discriminate; reflexivity.
Qed.



(** C6, as the code has it: for a truthy overrides argument that is
    neither a namespace nor a dict, [parse_args] raises [TypeError] once
    the marker-prefixed tokens of the invocation have been parsed, before
    any other token is parsed; the instance is left as the config-file
    pass left it, with the cached result untouched. *)
Theorem overrides_type_error_after_config_files
    H fuel argl v self self1 :
  truthy v = true -> is_namespace v = false -> is_dict v = false ->
  ~ In "" (invocation_tokens H argl self) ->
  parse_config_files H fuel
    (marker_tokens self (invocation_tokens H argl self)) self
    = (Ok tt, self1) ->
  parse_args H fuel argl v self = (Raise TypeError, self1) /\
  args self1 = args self.
Proof.
  intros T N D NE P. split.
  - rewrite parse_args_shape, resolve_phase_steps by exact NE.
    unfold bind. rewrite P.
    now rewrite process_default_namespace_bad_type.
  - now destruct (frames_parse_config_files H fuel _ _ _ _ P).
Qed.

Lemma overrides_type_error_after_config_files_witness :
  parse_args demo_host 1 (Some ["@cfg.yaml"; "--mode"; "eval"]) (PyInt 3)
    demo_parser =
  (Raise TypeError,
   set_config_files_data [(KStr "rate", PyInt 5)] demo_parser) /\
  args (set_config_files_data [(KStr "rate", PyInt 5)] demo_parser) =
  args demo_parser.
Proof.
  apply (overrides_type_error_after_config_files demo_host 1
           (Some ["@cfg.yaml"; "--mode"; "eval"]) (PyInt 3) demo_parser).
  - reflexivity.
  - reflexivity.
  - reflexivity.
  - simpl. intros [E|[E|[E|[]]]]; discriminate.
  - reflexivity.
Defined.

(** C6 as stated fails: with a marker token in the invocation the type of
    the overrides is examined only after that token has been processed.
    A reference to a missing file makes the call end in
    [FileNotFoundError], not [TypeError]; a reference to a mapping file
    has been merged into the config data by the time [TypeError] is
    raised. *)
Lemma overrides_type_error_not_first :
  truthy (PyInt 3) = true /\
  is_namespace (PyInt 3) = false /\
  is_dict (PyInt 3) = false /\
  parse_args demo_host 1 (Some ["@missing"]) (PyInt 3) demo_parser =
    (Raise FileNotFoundError, demo_parser) /\
  parse_args demo_host 1 (Some ["@cfg.yaml"]) (PyInt 3) demo_parser =
    (Raise TypeError,
     set_config_files_data [(KStr "rate", PyInt 5)] demo_parser) /\
  config_files_data demo_parser = [].
Proof. repeat split. Qed.

(** C3, at the failing input: handing [parse_args] the namespace
    [Namespace(mode="eval")] ends in [AttributeError], whatever the host
    and the instance, because [process_default_namespace] reads the
    attribute [_get_kwarg], which a namespace does not have. *)
Theorem namespace_overrides_attribute_error H fuel self :
  parse_args H fuel (Some []) (PyNamespace [("mode", PyStr "eval")]) self =
  (Raise AttributeError, self).
Proof. reflexivity. Qed.

(** ** The cache *)

(** C8: when [parse_args] ends in an exception the cached namespace is
    the one from before the call: a cached result keeps answering the
    lazy reads, and where there was none there still is none. *)
Theorem parse_args_error_keeps_cache H fuel argl ov self e self' :
  parse_args H fuel argl ov self = (Raise e, self') ->
  args self' = args self /\
  (forall cached, args self = Some cached ->
     forall fuel' name,
       __getattr__ H fuel' name self' =
       (match assoc_get String.eqb name cached with
        | Some a => Ok a
        | None => Raise KeyError
        end, self')) /\
  (args self = None -> args self' = None).
Proof.
  intros E. rewrite parse_args_shape in E.
  destruct (resolve_phase H fuel argl ov self) as [[ns|e0] s1] eqn:R;
    [discriminate|].
  inversion E; subst. clear E.
  destruct (frames_resolve_phase H fuel argl ov _ _ _ R) as (A & _).
  split; [exact A|]. split.
  - intros cached C fuel' name.
    unfold __getattr__, lookup_cached, bind, get, ret, raise.
    rewrite A, C. simpl. rewrite A, C.
    destruct (assoc_get String.eqb name cached); reflexivity.
  - intros C. now rewrite A.
Qed.

Lemma parse_args_error_keeps_cache_witness :
  let cached := [("rate", Val (PyStr "9")); ("mode", Val (PyStr "train"))] in
  let self := set_args (Some cached) demo_parser in
  args self = args self /\
  (forall cached', args self = Some cached' ->
     forall fuel' name,
       __getattr__ demo_host fuel' name self =
       (match assoc_get String.eqb name cached' with
        | Some a => Ok a
        | None => Raise KeyError
        end, self)) /\
  (args self = None -> args self = None).
Proof.
  intros cached self.
  apply (parse_args_error_keeps_cache demo_host 1 (Some ["@missing"])
           PyNone self FileNotFoundError self).
  reflexivity.
Defined.

(** C9: an explicit token list that contains the empty string makes
    [parse_args] end in [IndexError] at once, the instance unchanged,
    although [_read_args_from_files] lets an empty token through. *)
Theorem parse_args_empty_token H fuel argl ov self :
  In "" argl ->
  parse_args H fuel (Some argl) ov self = (Raise IndexError, self) /\
  _read_args_from_files H fuel [""] self = (Ok [""], self).
Proof.
  intros I. split.
  - rewrite parse_args_shape. unfold resolve_phase, bind, get, lift.
    now rewrite (select_args_empty_token true _ _ I).
  - destruct fuel; reflexivity.
Qed.

Lemma parse_args_empty_token_witness :
  parse_args demo_host 1 (Some ["--rate"; ""]) PyNone demo_parser =
    (Raise IndexError, demo_parser) /\
  _read_args_from_files demo_host 1 [""] demo_parser =
    (Ok [""], demo_parser).
Proof.
  apply (parse_args_empty_token demo_host 1 ["--rate"; ""] PyNone demo_parser).
  simpl. right. left. reflexivity.
Defined.

(** ** The singleton *)

(** C7: once [Flags(a1)] has created the instance, [Flags(a2)] returns
    that same object and changes nothing; the object is the one built
    from [a1], so its marker characters are those of the first call. *)
Theorem Flags_singleton H a1 a2 p :
  instance p = None ->
  let (o1, p1) := Flags H a1 p in
  let (o2, p2) := Flags H a2 p1 in
  o2 = o1 /\ p2 = p1 /\
  nth_error (objects p2) o1 = Some (init H a1) /\
  fromfile_prefix_chars (init H a1) =
    match a1 with Some l => l | None => ["@"] end.
Proof.
  intros N. unfold Flags. rewrite N. simpl.
  split; [reflexivity|]. split; [reflexivity|]. split.
  - rewrite nth_error_app2 by lia. now rewrite Nat.sub_diag.
  - reflexivity.
Qed.

Lemma Flags_singleton_witness :
  let (o1, p1) := Flags demo_host (Some ["+"]) Flags_start in
  let (o2, p2) := Flags demo_host (Some ["@"; "%"]) p1 in
  o2 = o1 /\ p2 = p1 /\
  nth_error (objects p2) o1 = Some (init demo_host (Some ["+"])) /\
  fromfile_prefix_chars (init demo_host (Some ["+"])) = ["+"].
Proof.
  apply (Flags_singleton demo_host (Some ["+"]) (Some ["@"; "%"]) Flags_start).
  reflexivity.
Defined.

(** ** The format probes *)

Lemma try_json_parse_never_decodes H path :
  try_json_parse H path =
  match files H path with
  | Some _ => Ok PyNone
  | None => Raise FileNotFoundError
  end.
Proof.
  unfold try_json_parse, open_file. now destruct (files H path).
Qed.

(** What [try_pickle_parse] returns is taken as it is, mapping or not. *)
Lemma process_dict_pickle_first H path content v :
  files H path = Some content ->
  pickle_load H content = Ok v -> truthy v = true ->
  process_dict H path = Ok v.
Proof.
  intros F P T. unfold process_dict, try_pickle_parse, open_file.
  rewrite F. simpl. rewrite P. simpl. rewrite T. simpl. now rewrite T.
Qed.

(** After a pickle failure of a class the probe catches, a mapping that
    [yaml.load] returns is the result. *)
Lemma process_dict_yaml_second H path content e d :
  files H path = Some content ->
  pickle_load H content = Raise e ->
  caught [ValueError; TypeError; UnpicklingError] e = true ->
  yaml_load H content = Ok (PyDict d) -> d <> [] ->
  process_dict H path = Ok (PyDict d).
Proof.
  intros F P C Y N. unfold process_dict, try_pickle_parse, try_yml_parse.
  unfold open_file. rewrite F. simpl rbind. rewrite P.
  unfold try_except at 1. rewrite C. simpl. rewrite Y. simpl.
  destruct d; [contradiction|reflexivity].
Qed.

(** A pickle failure of any other class leaves [process_dict]. *)
Lemma process_dict_pickle_escape H path content e :
  files H path = Some content ->
  pickle_load H content = Raise e ->
  caught [ValueError; TypeError; UnpicklingError] e = false ->
  process_dict H path = Raise e.
Proof.
  intros F P C. unfold process_dict, try_pickle_parse, open_file.
  rewrite F. simpl rbind. rewrite P. unfold try_except. now rewrite C.
Qed.

(** C4, at the failing input [@cfg.json], a JSON mapping indented with a
    tab: the pickle and YAML probes decline it, the JSON decoder would
    make a mapping of its text, yet [try_json_parse] hands [json.loads]
    the file object and so returns [None]; no probe yields a mapping and
    the file is read as a file of tokens, which ends in a usage error. *)
Theorem json_mapping_file_not_decoded :
  try_pickle_parse demo_host "cfg.json" = Ok PyNone /\
  try_yml_parse demo_host "cfg.json" = Ok PyNone /\
  json_decode demo_host cfg_json = Ok (PyDict [(KStr "rate", PyInt 5)]) /\
  try_json_parse demo_host "cfg.json" = Ok PyNone /\
  process_dict demo_host "cfg.json" = Ok PyNone /\
  parse_args demo_host 1 (Some ["@cfg.json"]) PyNone demo_parser =
    (Raise SystemExit, demo_parser).
Proof. repeat split. Qed.

(** C5, at the failing input [@empty], an empty file: [pickle.load]
    raises [EOFError], which the [except] clause of [try_pickle_parse]
    does not list; the exception leaves [process_dict] and [parse_args]
    without the next probe being tried. *)
Theorem empty_file_decode_error_escapes :
  files demo_host "empty" = Some "" /\
  pickle_load demo_host "" = Raise EOFError /\
  caught [ValueError; TypeError; UnpicklingError] EOFError = false /\
  process_dict demo_host "empty" = Raise EOFError /\
  parse_args demo_host 1 (Some ["@empty"]) PyNone demo_parser =
    (Raise EOFError, demo_parser).
Proof. repeat split. Qed.

(** ** Files of tokens *)

(** C2, at the failing input [@args.txt], a file with the two lines
    [--rate] and [9]: [_read_args_from_files] does splice the two tokens
    in, but [parse_args] parses every marker token in a pass of its own
    whose namespace it drops, so the resolved [rate] is the declared
    default, not the [9] that the same tokens give when written inline. *)
Theorem token_file_has_no_effect :
  _read_args_from_files demo_host 1 ["@args.txt"] demo_parser =
    (Ok ["--rate"; "9"], demo_parser) /\
  fst (parse_args demo_host 1 (Some ["--rate"; "9"]) PyNone demo_parser) =
    Ok [("rate", Val (PyStr "9")); ("mode", Val (PyStr "train"))] /\
  fst (parse_args demo_host 1 (Some ["@args.txt"]) PyNone demo_parser) =
    Ok [("rate", Val (PyStr "0.1")); ("mode", Val (PyStr "train"))].
Proof. repeat split. Qed.

(** ** Precedence *)


(** A parameter called [args] does not keep its parsed value: the
    assignment [self.args = ...] writes the namespace into it. *)
Example parameter_named_args :
  let self :=
    set_actions [{| dest := "args"; type_ := str_type;
                    default := PyStr "x" |}] (init demo_host None) in
  fst (parse_args demo_host 1 (Some ["--args"; "y"]) PyNone self) =
  Ok [("args", Self)].
Proof. reflexivity. Qed.

(** ** The inherited parser, seen from one parameter *)







Section DeclaredParameter.
Variable acts : list action.
Variable a : action.
Hypothesis acts_nodup : NoDup (map dest acts).
Hypothesis a_declared : In a acts.




End DeclaredParameter.


(** ** File references, token by token *)

Lemma starts_with_marker_truthy chars t :
  starts_with_marker chars t = true -> truthy (PyStr t) = true.
Proof. destruct t; [discriminate|reflexivity]. Qed.

Lemma read_loop_plain H read : forall l new self,
  Forall (fun t => starts_with_marker (fromfile_prefix_chars self) t = false) l ->
  read_loop H read l new self = (Ok (new ++ l)%list, self).
Proof.
  induction l as [|t rest IH]; intros new self F; simpl.
  - now rewrite app_nil_r.
  - inversion F as [|? ? Ft Frest]; subst.
    unfold bind at 1, get at 1. rewrite Ft, orb_true_r.
    rewrite IH by exact Frest. now rewrite <- app_assoc.
Qed.

Lemma read_args_plain H fuel l self :
  Forall (fun t => starts_with_marker (fromfile_prefix_chars self) t = false) l ->
  _read_args_from_files H fuel l self = (Ok l, self).
Proof. intros F. destruct fuel; simpl; now rewrite read_loop_plain. Qed.

Lemma plain_tokens_plain self l :
  Forall (fun t => starts_with_marker (fromfile_prefix_chars self) t = false)
    (plain_tokens self l).
Proof.
  apply Forall_forall. intros t I. unfold plain_tokens in I.
  apply filter_In in I. destruct I as [_ E].
  now destruct (starts_with_marker _ t).
Qed.

Lemma read_args_mapping H fuel t self d :
  starts_with_marker (fromfile_prefix_chars self) t = true ->
  process_dict H (drop_first t) = Ok (PyDict d) -> d <> [] ->
  _read_args_from_files H fuel [t] self =
  (Ok [],
   set_config_files_data (assoc_update key_eqb (config_files_data self) d)
     self).
Proof.
  intros S P N.
  assert (T : truthy (PyDict d) = true) by (destruct d; [contradiction|reflexivity]).
  destruct t as [|c r]; [discriminate|]. simpl in P.
  destruct fuel; simpl; unfold bind at 1, get at 1; rewrite S; simpl;
    unfold bind at 1, lift at 1; rewrite P, T; reflexivity.
Qed.



Lemma assoc_update_layer k (d d2 : pydict) :
  assoc_get key_eqb k (assoc_update key_eqb d d2) =
  match assoc_get key_eqb k (assoc_update key_eqb [] d2) with
  | Some v => Some v
  | None => assoc_get key_eqb k d
  end.
Proof.
  rewrite !(assoc_get_update key_eqb key_eqb_spec).
  destruct (assoc_get key_eqb k (rev d2)); reflexivity.
Qed.









(** The layers one at a time on the demo installation: the declared
    default, a mapping file over it, overrides over the file, a token
    over the overrides. *)
Example precedence_layers :
  let ov := PyDict [(KStr "rate", PyInt 6)] in
  let rate r := option_map (assoc_get String.eqb "rate")
                  (match fst r with Ok ns => Some ns | Raise _ => None end) in
  rate (parse_args demo_host 1 (Some []) PyNone demo_parser)
    = Some (Some (Val (PyStr "0.1"))) /\
  rate (parse_args demo_host 1 (Some ["@cfg.yaml"]) PyNone demo_parser)
    = Some (Some (Val (PyInt 5))) /\
  rate (parse_args demo_host 1 (Some ["@cfg.yaml"]) ov demo_parser)
    = Some (Some (Val (PyInt 6))) /\
  rate (parse_args demo_host 1 (Some ["@cfg.yaml"; "--rate"; "9"]) ov
          demo_parser)
    = Some (Some (Val (PyStr "9"))).
Proof. repeat split. Qed.

(** * More of the module *)

(** ** What [process_dict] can return and raise *)

Lemma caught_json_type_error : caught [ValueError; TypeError] TypeError = true.
Proof. reflexivity. Qed.

Ltac probe_step :=
  match goal with
  | |- context [files ?H ?p] => destruct (files H p) eqn:?
  | |- context [match pickle_load ?H ?c with _ => _ end] =>
      destruct (pickle_load H c) eqn:?
  | |- context [match yaml_load ?H ?c with _ => _ end] =>
      destruct (yaml_load H c) eqn:?
  | |- context [if caught ?l ?e then _ else _] => destruct (caught l e) eqn:?
  | |- context [if negb (is_dict ?y) then _ else _] =>
      destruct (is_dict y) eqn:?
  | |- context [if negb (truthy ?y) then _ else _] =>
      destruct (truthy y) eqn:?
  end.

Ltac probe_cases :=
  unfold process_dict, try_pickle_parse, try_yml_parse, try_json_parse,
    open_file, json_loads, try_except, rbind;
  repeat (cbn [truthy negb is_dict]; rewrite ?caught_json_type_error;
          probe_step);
  cbn [truthy negb is_dict]; rewrite ?caught_json_type_error.

(** X2: what [process_dict] returns is [None] or an object that counts
    as true; such an object is what [pickle.load] made of the file, of
    whatever type, or a mapping that [yaml.load] made of it. *)
Theorem process_dict_result_kinds H path v :
  process_dict H path = Ok v ->
  v = PyNone \/
  (truthy v = true /\
   exists content,
     files H path = Some content /\
     (pickle_load H content = Ok v \/
      (yaml_load H content = Ok v /\ is_dict v = true))).
Proof.
  probe_cases. all: intros E; inversion E; subst; auto.
  all: right; split; [assumption|]; eexists; split; [reflexivity|]; auto.
Qed.

Lemma process_dict_result_kinds_witness :
  PyDict [(KStr "rate", PyInt 5)] = PyNone \/
  (truthy (PyDict [(KStr "rate", PyInt 5)]) = true /\
   exists content,
     files demo_host "cfg.yaml" = Some content /\
     (pickle_load demo_host content = Ok (PyDict [(KStr "rate", PyInt 5)]) \/
      (yaml_load demo_host content = Ok (PyDict [(KStr "rate", PyInt 5)]) /\
       is_dict (PyDict [(KStr "rate", PyInt 5)]) = true))).
Proof.
  apply (process_dict_result_kinds demo_host "cfg.yaml"). reflexivity.
Defined.

(** X3: an exception that leaves [process_dict] is [FileNotFoundError]
    for a missing file, or else an exception of [pickle.load] or of
    [yaml.load] that the [except] clause of the probe does not list; the
    JSON probe never lets one out. *)
Theorem process_dict_exception_source H path e :
  process_dict H path = Raise e ->
  (files H path = None /\ e = FileNotFoundError) \/
  exists content,
    files H path = Some content /\
    ((pickle_load H content = Raise e /\
      caught [ValueError; TypeError; UnpicklingError] e = false) \/
     (yaml_load H content = Raise e /\
      caught [ValueError; TypeError; ScannerError] e = false)).
Proof.
  probe_cases. all: intros E; inversion E; subst; auto.
  all: right; eexists; split; [reflexivity|]; auto.
Qed.

Lemma process_dict_exception_source_witness :
  (files demo_host "empty" = None /\ EOFError = FileNotFoundError) \/
  exists content,
    files demo_host "empty" = Some content /\
    ((pickle_load demo_host content = Raise EOFError /\
      caught [ValueError; TypeError; UnpicklingError] EOFError = false) \/
     (yaml_load demo_host content = Raise EOFError /\
      caught [ValueError; TypeError; ScannerError] EOFError = false)).
Proof.
  apply (process_dict_exception_source demo_host "empty"). reflexivity.
Defined.

(** X4: when a file exists, the pickle probe ends in a caught failure or
    in an object that counts as false, and the YAML probe ends in a caught
    failure, in something that is no mapping, or in the empty mapping,
    then [process_dict] returns [None]: the file will be read as a file
    of tokens.  An empty mapping file is not told apart from no
    mapping. *)
Theorem process_dict_no_mapping H path content :
  files H path = Some content ->
  match pickle_load H content with
  | Ok v => truthy v = false
  | Raise e => caught [ValueError; TypeError; UnpicklingError] e = true
  end ->
  match yaml_load H content with
  | Ok v => (is_dict v && truthy v)%bool = false
  | Raise e => caught [ValueError; TypeError; ScannerError] e = true
  end ->
  process_dict H path = Ok PyNone.
Proof.
  intros F P Y.
  unfold process_dict, try_pickle_parse, try_yml_parse, try_json_parse,
    open_file, json_loads, try_except, rbind.
  rewrite F.
  destruct (pickle_load H content) as [x|e]; rewrite P; cbn [truthy negb];
    (destruct (yaml_load H content) as [y|e'];
     [ destruct (is_dict y); cbn [andb negb truthy] in *; rewrite ?Y;
       cbn [negb truthy]; rewrite ?caught_json_type_error; reflexivity
     | rewrite Y; cbn [negb truthy]; rewrite ?caught_json_type_error;
       reflexivity ]).
Qed.

Lemma process_dict_no_mapping_witness :
  process_dict demo_host "args.txt" = Ok PyNone.
Proof.
  apply (process_dict_no_mapping demo_host "args.txt" args_txt);
    reflexivity.
Defined.

(** ** Expansion of file references *)

Lemma expand_prefix H read path new self :
  _expand_arg_strings_from_file H read path new self =
  with_prefix new (_expand_arg_strings_from_file H read path [] self).
Proof.
  unfold _expand_arg_strings_from_file, bind, lift.
  destruct (open_file H path) as [content|e]; [|reflexivity].
  destruct (read _ self) as [[l|e] s]; [reflexivity|].
  destruct (isinstance_exn e OSError); reflexivity.
Qed.

Lemma with_prefix_app a b r :
  with_prefix (a ++ b)%list r = with_prefix a (with_prefix b r).
Proof. destruct r as [[l|e] s]; simpl; [now rewrite app_assoc|reflexivity]. Qed.

Lemma with_prefix_nil r : with_prefix [] r = r.
Proof. now destruct r as [[l|e] s]. Qed.

Lemma read_loop_cons H read t rest new self :
  read_loop H read (t :: rest) new self =
  if (negb (truthy (PyStr t)) ||
      negb (starts_with_marker (fromfile_prefix_chars self) t))%bool
  then read_loop H read rest (new ++ [t])%list self
  else
    match process_dict H (drop_first t) with
    | Raise e => (Raise e, self)
    | Ok v =>
        if truthy v then
          match update_config_files_data v self with
          | (Ok _, s) => read_loop H read rest new s
          | (Raise e, s) => (Raise e, s)
          end
        else
          match _expand_arg_strings_from_file H read (drop_first t) new self
          with
          | (Ok l, s) => read_loop H read rest l s
          | (Raise e, s) => (Raise e, s)
          end
    end.
Proof.
  cbn [read_loop]. unfold bind, get, lift.
  destruct (_ || _)%bool; [reflexivity|].
  destruct (process_dict H (drop_first t)) as [v|e]; [|reflexivity].
  destruct (truthy v); [|reflexivity].
  now destruct (update_config_files_data v self) as [[[]|e] s].
Qed.

(** The list built so far is only ever extended at its end. *)
Lemma read_loop_prefix H read : forall l new self,
  read_loop H read l new self = with_prefix new (read_loop H read l [] self).
Proof.
  induction l as [|t rest IH]; intros new self.
  - simpl. unfold ret. simpl. now rewrite app_nil_r.
  - rewrite !read_loop_cons.
    destruct (_ || _)%bool.
    + rewrite (IH (new ++ [t])%list), (IH ([] ++ [t])%list).
      now rewrite with_prefix_app.
    + destruct (process_dict H (drop_first t)) as [v|e]; [|reflexivity].
      destruct (truthy v).
      * destruct (update_config_files_data v self) as [[[]|e] s];
          [apply IH|reflexivity].
      * rewrite expand_prefix.
        destruct (_expand_arg_strings_from_file H read (drop_first t) [] self)
          as [[l|e] s]; simpl; [|reflexivity].
        rewrite (IH (new ++ l)%list), (IH l). now rewrite with_prefix_app.
Qed.

Lemma read_loop_app H read : forall l1 l2 new self,
  read_loop H read (l1 ++ l2) new self =
  match read_loop H read l1 new self with
  | (Ok r1, s1) => read_loop H read l2 r1 s1
  | (Raise e, s1) => (Raise e, s1)
  end.
Proof.
  induction l1 as [|t rest IH]; intros l2 new self.
  - reflexivity.
  - rewrite <- app_comm_cons, !read_loop_cons.
    destruct (_ || _)%bool; [apply IH|].
    destruct (process_dict H (drop_first t)) as [v|e]; [|reflexivity].
    destruct (truthy v).
    + destruct (update_config_files_data v self) as [[[]|e] s];
        [apply IH|reflexivity].
    + destruct (_expand_arg_strings_from_file H read (drop_first t) new self)
        as [[l|e] s]; [apply IH|reflexivity].
Qed.

Lemma read_args_unfold H fuel l :
  _read_args_from_files H fuel l = read_loop H (recursive_read H fuel) l [].
Proof. destruct fuel; reflexivity. Qed.

Lemma read_args_app H fuel l1 l2 self :
  _read_args_from_files H fuel (l1 ++ l2) self =
  bind (_read_args_from_files H fuel l1)
    (fun r1 =>
       bind (_read_args_from_files H fuel l2)
         (fun r2 => ret (r1 ++ r2)%list)) self.
Proof.
  rewrite !read_args_unfold. rewrite read_loop_app. unfold bind.
  destruct (read_loop H (recursive_read H fuel) l1 [] self) as [[r1|e] s1];
    [|reflexivity].
  rewrite (read_loop_prefix H _ l2 r1 s1).
  now destruct (read_loop H (recursive_read H fuel) l2 [] s1) as [[r2|e] s2].
Qed.

(** X5: expanding a token list that is two lists put end to end is
    expanding the first, then the second on the instance as the first
    left it, and putting the two results end to end; an exception of the
    first part stops the expansion. *)
Theorem read_args_from_files_app H fuel l1 l2 self :
  _read_args_from_files H fuel (l1 ++ l2) self =
  bind (_read_args_from_files H fuel l1)
    (fun r1 =>
       bind (_read_args_from_files H fuel l2)
         (fun r2 => ret (r1 ++ r2)%list)) self.
Proof. apply read_args_app. Qed.

(** X6: tokens that start with no marker, empty tokens included, pass
    through [_read_args_from_files] unchanged and in order, and the
    instance is not touched. *)
Theorem read_args_from_files_plain H fuel l self :
  Forall (plain self) l ->
  _read_args_from_files H fuel l self = (Ok l, self).
Proof. intros F. now apply read_args_plain. Qed.

Lemma read_args_from_files_plain_witness :
  _read_args_from_files demo_host 0 ["--rate"; ""; "a@b"] demo_parser =
  (Ok ["--rate"; ""; "a@b"], demo_parser).
Proof.
  apply (read_args_from_files_plain demo_host 0 ["--rate"; ""; "a@b"]
           demo_parser).
  repeat constructor.
Defined.

Lemma same_config_chars s s' :
  same_config s s' -> fromfile_prefix_chars s' = fromfile_prefix_chars s.
Proof. now intros (_ & C & _). Qed.

(** X7: in a token list made of plain tokens and of references to
    mapping files, [_read_args_from_files] returns the plain tokens in
    their order, merges the mappings into the config data in the order of
    the references (a later file overwriting an earlier one key by key),
    and changes nothing else. *)
Theorem read_args_from_files_mappings H fuel : forall l self,
  Forall (fun t => plain self t \/ mapping_reference H t) l ->
  exists self',
    _read_args_from_files H fuel l self = (Ok (plain_tokens self l), self') /\
    same_config self self' /\
    config_files_data self' =
    fold_left (merge_mapping_file H) (marker_tokens self l)
      (config_files_data self).
Proof.
  induction l as [|t rest IH]; intros self F.
  - exists self. split; [now rewrite read_args_unfold|].
    split; [apply same_config_refl|reflexivity].
  - inversion F as [|? ? Ft Frest]; subst.
    change (t :: rest) with ([t] ++ rest)%list at 1.
    rewrite read_args_app. unfold bind at 1.
    unfold plain_tokens, marker_tokens. simpl filter.
    destruct (starts_with_marker (fromfile_prefix_chars self) t) eqn:S.
    + destruct Ft as [Ft|(d & N & P)]; [unfold plain in Ft; congruence|].
      rewrite (read_args_mapping H fuel t self d S P N).
      set (s1 := set_config_files_data _ self).
      destruct (IH s1) as (s2 & R & C & D).
      { exact Frest. }
      exists s2. unfold bind. rewrite R. simpl. split; [reflexivity|].
      split; [exact C|].
      rewrite D. simpl. unfold merge_mapping_file at 3. now rewrite P.
    + rewrite (read_args_plain H fuel [t] self)
        by (constructor; [exact S|constructor]).
      destruct (IH self Frest) as (s2 & R & C & D).
      exists s2. unfold bind. rewrite R. simpl. auto.
Qed.

Lemma read_args_from_files_mappings_witness :
  exists self',
    _read_args_from_files demo_host 0 ["--mode"; "@cfg.yaml"; "eval"]
      demo_parser =
    (Ok (plain_tokens demo_parser ["--mode"; "@cfg.yaml"; "eval"]), self') /\
    same_config demo_parser self' /\
    config_files_data self' =
    fold_left (merge_mapping_file demo_host)
      (marker_tokens demo_parser ["--mode"; "@cfg.yaml"; "eval"])
      (config_files_data demo_parser).
Proof.
  apply (read_args_from_files_mappings demo_host 0
           ["--mode"; "@cfg.yaml"; "eval"] demo_parser).
  constructor; [left; reflexivity|].
  constructor.
  - right. exists [(KStr "rate", PyInt 5)].
    split; [discriminate|reflexivity].
  - constructor; [left; reflexivity|constructor].
Defined.

(** ** Files of tokens, nested and missing *)

Lemma flat_map_lines l : flat_map convert_arg_line_to_args l = l.
Proof. induction l as [|x l IH]; simpl; [reflexivity|now rewrite IH]. Qed.

Lemma process_dict_missing H path :
  files H path = None -> process_dict H path = Raise FileNotFoundError.
Proof.
  intros F. unfold process_dict, try_pickle_parse, open_file.
  now rewrite F.
Qed.

(** A reference to a file of tokens expands to what the recursive call
    makes of the lines of the file; an [OSError] of that call becomes a
    usage error. *)
Lemma read_loop_token_file H read t content self :
  starts_with_marker (fromfile_prefix_chars self) t = true ->
  token_file_reference H t content ->
  read_loop H read [t] [] self =
  match read (splitlines content) self with
  | (Ok l, s) => (Ok l, s)
  | (Raise e, s) =>
      (if isinstance_exn e OSError then Raise SystemExit else Raise e, s)
  end.
Proof.
  intros Sm (F & v & P & T).
  rewrite read_loop_cons, Sm, (starts_with_marker_truthy _ _ Sm). simpl orb.
  cbv iota. rewrite P, T.
  unfold _expand_arg_strings_from_file, bind, lift, open_file.
  rewrite F, flat_map_lines.
  destruct (read (splitlines content) self) as [[l|e] s]; [reflexivity|].
  now destruct (isinstance_exn e OSError).
Qed.

Lemma read_args_missing H fuel t rest self :
  starts_with_marker (fromfile_prefix_chars self) t = true ->
  files H (drop_first t) = None ->
  _read_args_from_files H fuel (t :: rest) self =
  (Raise FileNotFoundError, self).
Proof.
  intros Sm F.
  rewrite read_args_unfold, read_loop_cons, Sm.
  rewrite (starts_with_marker_truthy _ _ Sm). simpl orb. cbv iota.
  now rewrite (process_dict_missing H _ F).
Qed.

(** X8: a reference to a file of tokens whose lines start with no marker
    is replaced, at its place among the plain tokens around it, by the
    lines of the file, one token per line; the instance is not touched.
    One level of nesting is needed for it. *)
Theorem token_file_spliced H fuel pre t post content self :
  Forall (plain self) pre -> Forall (plain self) post ->
  starts_with_marker (fromfile_prefix_chars self) t = true ->
  token_file_reference H t content ->
  Forall (plain self) (splitlines content) ->
  _read_args_from_files H (S fuel) (pre ++ t :: post) self =
  (Ok (pre ++ splitlines content ++ post)%list, self).
Proof.
  intros Fpre Fpost Sm R Flines.
  change (t :: post) with ([t] ++ post)%list.
  rewrite (read_args_app H (S fuel) pre ([t] ++ post)%list self).
  unfold bind.
  rewrite (read_args_plain H _ pre self Fpre).
  rewrite (read_args_app H (S fuel) [t] post self). unfold bind.
  rewrite read_args_unfold, (read_loop_token_file H _ t content self Sm R).
  simpl recursive_read.
  rewrite (read_args_plain H _ _ self Flines).
  now rewrite (read_args_plain H _ post self Fpost).
Qed.

Lemma token_file_spliced_witness :
  _read_args_from_files demo_host 1 (["--mode"; "eval"] ++ "@args.txt" :: [])
    demo_parser =
  (Ok (["--mode"; "eval"] ++ splitlines args_txt ++ [])%list, demo_parser).
Proof.
  apply (token_file_spliced demo_host 0 ["--mode"; "eval"] "@args.txt" []
           args_txt demo_parser).
  - repeat constructor.
  - constructor.
  - reflexivity.
  - split; [reflexivity|]. exists PyNone. split; reflexivity.
  - repeat constructor.
Defined.

(** X9: a file of tokens that refers to itself is never expanded to the
    end: whatever the depth of nesting allowed, [_read_args_from_files]
    ends in [RecursionError]. *)
Theorem cyclic_token_file H t content pre post self :
  starts_with_marker (fromfile_prefix_chars self) t = true ->
  token_file_reference H t content ->
  splitlines content = (pre ++ t :: post)%list ->
  Forall (plain self) pre ->
  forall fuel,
    _read_args_from_files H fuel [t] self = (Raise RecursionError, self).
Proof.
  intros Sm R L Fpre. induction fuel as [|fuel IH].
  - rewrite read_args_unfold, (read_loop_token_file H _ t content self Sm R).
    reflexivity.
  - rewrite read_args_unfold, (read_loop_token_file H _ t content self Sm R).
    simpl recursive_read. rewrite L.
    change (t :: post) with ([t] ++ post)%list.
    rewrite (read_args_app H fuel pre ([t] ++ post)%list self).
    unfold bind.
    rewrite (read_args_plain H _ pre self Fpre).
    rewrite (read_args_app H fuel [t] post self). unfold bind.
    rewrite IH. reflexivity.
Qed.

Lemma cyclic_token_file_witness :
  let H :=
    {| files := fun p => if String.eqb p "loop.txt" then Some "@loop.txt"
                         else None;
       pickle_load := fun _ => Raise UnpicklingError;
       yaml_load := fun c => Ok (PyStr c);
       json_decode := fun _ => Raise ValueError;
       argv := [] |} in
  _read_args_from_files H 7 ["@loop.txt"] demo_parser =
  (Raise RecursionError, demo_parser).
Proof.
  intros H.
  apply (cyclic_token_file H "@loop.txt" "@loop.txt" [] [] demo_parser).
  - reflexivity.
  - split; [reflexivity|]. exists PyNone. split; reflexivity.
  - reflexivity.
  - constructor.
Defined.

(** X10: a reference to a missing file raises [FileNotFoundError] when it
    stands in the token list itself, but a usage error ([SystemExit])
    when it stands on a line of a file of tokens: there the [except
    OSError] clause of [_expand_arg_strings_from_file] catches it. *)
Theorem missing_file_nested H fuel t content pre t' post self :
  starts_with_marker (fromfile_prefix_chars self) t = true ->
  token_file_reference H t content ->
  splitlines content = (pre ++ t' :: post)%list ->
  Forall (plain self) pre ->
  starts_with_marker (fromfile_prefix_chars self) t' = true ->
  files H (drop_first t') = None ->
  _read_args_from_files H fuel [t'] self = (Raise FileNotFoundError, self) /\
  _read_args_from_files H (S fuel) [t] self = (Raise SystemExit, self).
Proof.
  intros Sm R L Fpre Sm' F'. split.
  - now apply read_args_missing.
  - rewrite read_args_unfold, (read_loop_token_file H _ t content self Sm R).
    simpl recursive_read. rewrite L.
    rewrite (read_args_app H fuel pre (t' :: post) self). unfold bind.
    rewrite (read_args_plain H _ pre self Fpre).
    now rewrite (read_args_missing H fuel t' post self Sm' F').
Qed.

Lemma missing_file_nested_witness :
  let H :=
    {| files := fun p => if String.eqb p "outer.txt"
                         then Some ("--rate" ++ newline ++ "@missing")
                         else None;
       pickle_load := fun _ => Raise UnpicklingError;
       yaml_load := fun c => Ok (PyStr c);
       json_decode := fun _ => Raise ValueError;
       argv := [] |} in
  _read_args_from_files H 1 ["@missing"] demo_parser =
    (Raise FileNotFoundError, demo_parser) /\
  _read_args_from_files H 2 ["@outer.txt"] demo_parser =
    (Raise SystemExit, demo_parser).
Proof.
  intros H.
  apply (missing_file_nested H 1 "@outer.txt"
           ("--rate" ++ newline ++ "@missing") ["--rate"] "@missing" []
           demo_parser).
  - reflexivity.
  - split; [reflexivity|]. exists PyNone. split; reflexivity.
  - reflexivity.
  - repeat constructor.
  - reflexivity.
  - reflexivity.
Defined.

(** X1: when the first marker token of an invocation refers to a missing
    file, [parse_args] ends in [FileNotFoundError], raised by the first
    probe of [process_dict], and the instance is as before the call. *)
Theorem missing_file_reference H fuel argl ov self t rest :
  ~ In "" (invocation_tokens H argl self) ->
  marker_tokens self (invocation_tokens H argl self) = t :: rest ->
  files H (drop_first t) = None ->
  process_dict H (drop_first t) = Raise FileNotFoundError /\
  parse_args H fuel argl ov self = (Raise FileNotFoundError, self).
Proof.
  intros NE MT F. split; [now apply process_dict_missing|].
  assert (Sm : starts_with_marker (fromfile_prefix_chars self) t = true).
  { assert (I : In t (marker_tokens self (invocation_tokens H argl self)))
      by (rewrite MT; now left).
    unfold marker_tokens in I. now apply filter_In in I. }
  rewrite parse_args_shape, resolve_phase_steps by exact NE.
  rewrite MT. cbn [parse_config_files].
  unfold Argparse.parse_args, bind, get.
  now rewrite (read_args_missing H fuel t [] self Sm F).
Qed.

Lemma missing_file_reference_witness :
  process_dict demo_host (drop_first "@missing") = Raise FileNotFoundError /\
  parse_args demo_host 1 (Some ["--rate"; "9"; "@missing"; "@cfg.yaml"])
    PyNone demo_parser = (Raise FileNotFoundError, demo_parser).
Proof.
  apply (missing_file_reference demo_host 1
           (Some ["--rate"; "9"; "@missing"; "@cfg.yaml"]) PyNone demo_parser
           "@missing" ["@cfg.yaml"]).
  - simpl. intuition discriminate.
  - reflexivity.
  - reflexivity.
Defined.

(** ** What a whole call keeps *)

Section Invariant.
Variable R : MyArguments -> MyArguments -> Prop.
Hypothesis R_refl : forall s, R s s.
Hypothesis R_trans : forall s1 s2 s3, R s1 s2 -> R s2 s3 -> R s1 s3.
Hypothesis R_update :
  forall v, keeps R (update_config_files_data v).

Lemma keeps_ret {A} (a : A) : keeps R (ret a).
Proof. intros s r s' E. inversion E. apply R_refl. Qed.

Lemma keeps_raise {A} e : keeps R (@raise A e).
Proof. intros s r s' E. inversion E. apply R_refl. Qed.

Lemma keeps_lift {A} (x : result A) : keeps R (lift x).
Proof. intros s r s' E. inversion E. apply R_refl. Qed.

Lemma keeps_get : keeps R get.
Proof. intros s r s' E. inversion E. apply R_refl. Qed.

Lemma keeps_bind {A B} (c : M A) (k : A -> M B) :
  keeps R c -> (forall a, keeps R (k a)) -> keeps R (bind c k).
Proof.
  intros Kc Kk s r s' E.
  destruct (bind_cases _ _ _ _ _ E) as [(a & s1 & E1 & E2)|(e & E1 & _)].
  - eapply R_trans; [eapply Kc|eapply Kk]; eassumption.
  - eapply Kc; eassumption.
Qed.

Lemma keeps_expand H read path new :
  (forall l, keeps R (read l)) ->
  keeps R (_expand_arg_strings_from_file H read path new).
Proof.
  intros Kr. unfold _expand_arg_strings_from_file.
  apply keeps_bind; [apply keeps_lift|]. intros content s r s' E.
  destruct (read _ s) as [[l|e] s1] eqn:Rd.
  - inversion E; subst. eapply Kr; eassumption.
  - destruct (isinstance_exn e OSError); inversion E; subst;
      eapply Kr; eassumption.
Qed.

Lemma keeps_read_loop H read :
  (forall l, keeps R (read l)) ->
  forall l new, keeps R (read_loop H read l new).
Proof.
  intros Kr. induction l as [|t rest IH]; intros new; simpl.
  - apply keeps_ret.
  - apply keeps_bind; [apply keeps_get|]. intros s.
    destruct (_ || _)%bool; [apply IH|].
    apply keeps_bind; [apply keeps_lift|]. intros v.
    destruct (truthy v).
    + apply keeps_bind; [apply R_update|]. intros _. apply IH.
    + apply keeps_bind; [now apply keeps_expand|]. intros l. apply IH.
Qed.

Lemma keeps_read_args H fuel : forall l, keeps R (_read_args_from_files H fuel l).
Proof.
  induction fuel as [|fuel IH]; intros l; simpl;
    apply keeps_read_loop; [intros; apply keeps_raise|exact IH].
Qed.

Lemma keeps_argparse read argl ns :
  (forall l, keeps R (read l)) -> keeps R (Argparse.parse_args read argl ns).
Proof.
  intros Kr. unfold Argparse.parse_args.
  apply keeps_bind; [apply keeps_get|]. intros s.
  apply keeps_bind; [apply Kr|]. intros l. apply keeps_lift.
Qed.

Lemma keeps_parse_config_files H fuel :
  forall l, keeps R (parse_config_files H fuel l).
Proof.
  induction l as [|t rest IH]; simpl; [apply keeps_ret|].
  apply keeps_bind; [|intros; apply IH].
  apply keeps_argparse, keeps_read_args.
Qed.

Lemma keeps_process_default_namespace v :
  keeps R (process_default_namespace v).
Proof.
  unfold process_default_namespace. apply keeps_bind.
  - destruct (truthy v); [|apply keeps_ret].
    destruct v; try apply keeps_raise; try apply R_update.
    destruct (ns_get _ _); [apply R_update|apply keeps_raise].
  - intros _. apply keeps_bind; [apply keeps_get|]. intros s.
    destruct (truthy _); [|apply keeps_ret].
    apply keeps_bind; [apply keeps_lift|]. intros n. apply keeps_ret.
Qed.

Lemma keeps_resolve_phase H fuel argl ov :
  keeps R (resolve_phase H fuel argl ov).
Proof.
  unfold resolve_phase.
  apply keeps_bind; [apply keeps_get|]. intros s.
  apply keeps_bind; [apply keeps_lift|]. intros cfg.
  apply keeps_bind; [apply keeps_lift|]. intros other.
  apply keeps_bind; [apply keeps_parse_config_files|]. intros _.
  apply keeps_bind; [apply keeps_process_default_namespace|]. intros dn.
  apply keeps_argparse, keeps_read_args.
Qed.

Hypothesis R_set_args : forall a s, R s (set_args a s).

Lemma keeps_parse_args H fuel argl ov : keeps R (parse_args H fuel argl ov).
Proof.
  intros s r s' E. rewrite parse_args_shape in E.
  destruct (resolve_phase H fuel argl ov s) as [[ns|e] s1] eqn:Rp;
    inversion E; subst.
  - eapply R_trans; [eapply keeps_resolve_phase; eassumption|].
    apply R_set_args.
  - eapply keeps_resolve_phase; eassumption.
Qed.
End Invariant.

Lemma keeps_keys_refl s : keeps_keys s s.
Proof. intros k M. exact M. Qed.

Lemma keeps_keys_trans s1 s2 s3 :
  keeps_keys s1 s2 -> keeps_keys s2 s3 -> keeps_keys s1 s3.
Proof. intros A B k M. apply B, A, M. Qed.

Lemma key_mem_set k k' v (d : pydict) :
  assoc_mem key_eqb k d = true ->
  assoc_mem key_eqb k (assoc_set key_eqb k' v d) = true.
Proof.
  intros M. rewrite (assoc_mem_set key_eqb key_eqb_spec), M.
  apply orb_true_r.
Qed.

Lemma key_mem_update k (d2 : pydict) : forall d,
  assoc_mem key_eqb k d = true ->
  assoc_mem key_eqb k (assoc_update key_eqb d d2) = true.
Proof.
  unfold assoc_update. induction d2 as [|[k2 v2] r IH]; intros d M; simpl.
  - exact M.
  - apply IH. now apply key_mem_set.
Qed.

Lemma key_mem_update_pairs k : forall items (d : pydict),
  assoc_mem key_eqb k d = true ->
  assoc_mem key_eqb k (snd (update_pairs d items)) = true.
Proof.
  induction items as [|it rest IH]; intros d M; simpl; [exact M|].
  destruct (iterate it) as [[|x [|y [|z l]]]|e]; simpl; try exact M.
  destruct (key_of x) as [k'|e]; simpl; [|exact M].
  apply IH. now apply key_mem_set.
Qed.

Lemma keeps_keys_update v : keeps keeps_keys (update_config_files_data v).
Proof.
  intros s r s' E k M. unfold update_config_files_data in E.
  destruct (dict_update_from (config_files_data s) v) as [r0 d] eqn:U.
  inversion E; subst. simpl. clear E.
  assert (D : d = snd (dict_update_from (config_files_data s) v))
    by now rewrite U.
  rewrite D. clear U D. unfold dict_update_from.
  destruct v; simpl; try exact M.
  - now apply key_mem_update_pairs.
  - now apply key_mem_update_pairs.
  - now apply key_mem_update.
Qed.

(** X16: no call of [parse_args], whatever its outcome, takes a key out
    of the config data of the resolver: what files and overrides have
    put there stays for the calls to come. *)
Theorem parse_args_keeps_config_keys H fuel argl ov self :
  keeps_keys self (snd (parse_args H fuel argl ov self)).
Proof.
  destruct (parse_args H fuel argl ov self) as [r s'] eqn:E. simpl.
  revert E. apply keeps_parse_args.
  - apply keeps_keys_refl.
  - apply keeps_keys_trans.
  - apply keeps_keys_update.
  - intros a s k M. exact M.
Qed.

(** X11: no call of [parse_args], whatever its outcome, changes the
    declared parameters, the marker characters or the notebook flag of
    the resolver. *)
Theorem parse_args_keeps_declarations H fuel argl ov self :
  actions (snd (parse_args H fuel argl ov self)) = actions self /\
  fromfile_prefix_chars (snd (parse_args H fuel argl ov self)) =
    fromfile_prefix_chars self /\
  is_jupyter_notebook (snd (parse_args H fuel argl ov self)) =
    is_jupyter_notebook self.
Proof.
  rewrite parse_args_shape.
  destruct (resolve_phase H fuel argl ov self) as [[ns|e] s1] eqn:Rp;
    destruct (frames_resolve_phase H fuel argl ov _ _ _ Rp)
      as (_ & C & J & A); simpl; auto.
Qed.

(** ** The resolved mapping as a whole *)


(** The parse of tokens that refer to no file leaves the instance alone:
    it is the store actions followed by the conversion of defaults. *)
Lemma argparse_plain_run H fuel toks dn s :
  Forall (plain s) toks ->
  Argparse.parse_args (_read_args_from_files H fuel) toks dn s =
  (rbind
     (Argparse.consume_tokens (actions s)
        (Argparse.add_defaults (actions s)
           (match dn with Some n => n | None => [] end)) [] toks)
     (fun r =>
        Argparse.convert_defaults (actions s)
          (match dn with Some n => n | None => [] end) (snd r) (fst r)),
   s).
Proof.
  intros F. unfold Argparse.parse_args, bind, get.
  now rewrite (read_args_plain H fuel toks s F).
Qed.








(** X12: where the file references stand among the other tokens does not
    matter: two token lists with the same marker tokens in the same order
    and the same other tokens in the same order give [parse_args] the
    same outcome and leave the same instance.  In particular a file
    named after a flag on the command line does not override the flag. *)
Theorem parse_args_position_of_references H fuel l1 l2 ov self :
  ~ In "" l1 -> ~ In "" l2 ->
  marker_tokens self l1 = marker_tokens self l2 ->
  plain_tokens self l1 = plain_tokens self l2 ->
  parse_args H fuel (Some l1) ov self = parse_args H fuel (Some l2) ov self.
Proof.
  intros N1 N2 M P. rewrite !parse_args_shape.
  rewrite (resolve_phase_steps H fuel (Some l1) ov self N1).
  rewrite (resolve_phase_steps H fuel (Some l2) ov self N2).
  simpl invocation_tokens. now rewrite M, P.
Qed.

Lemma parse_args_position_of_references_witness :
  parse_args demo_host 1 (Some ["@cfg.yaml"; "--rate"; "9"]) PyNone
    demo_parser =
  parse_args demo_host 1 (Some ["--rate"; "9"; "@cfg.yaml"]) PyNone
    demo_parser.
Proof.
  apply (parse_args_position_of_references demo_host 1
           ["@cfg.yaml"; "--rate"; "9"] ["--rate"; "9"; "@cfg.yaml"]
           PyNone demo_parser).
  - simpl. intuition discriminate.
  - simpl. intuition discriminate.
  - reflexivity.
  - reflexivity.
Defined.





Lemma process_default_namespace_dict d s r s2 :
  d <> [] ->
  process_default_namespace (PyDict d) s = (r, s2) ->
  s2 = set_config_files_data
         (assoc_update key_eqb (config_files_data s) d) s.
Proof.
  intros ND. unfold process_default_namespace, bind, get.
  destruct d as [|kv d']; [contradiction|].
  cbn [truthy update_config_files_data dict_update_from].
  cbv beta iota.
  match goal with |- context [if ?c then _ else _] => destruct c end.
  - unfold lift, ret. destruct (Namespace_kwargs _);
      intros E; inversion E; reflexivity.
  - unfold ret. intros E; inversion E; reflexivity.
Qed.

(** X15: an overrides dict is merged into the config data of the
    resolver before the other tokens are parsed, and stays there whatever
    the outcome of the call: also when the call then ends in a usage
    error, the calls to come find the overrides among their defaults. *)
Theorem overrides_persist H fuel argl d self s1 :
  ~ In "" (invocation_tokens H argl self) ->
  parse_config_files H fuel
    (marker_tokens self (invocation_tokens H argl self)) self
    = (Ok tt, s1) ->
  d <> [] ->
  forall k,
    dict_get k
      (config_files_data (snd (parse_args H fuel argl (PyDict d) self))) =
    match dict_get k (overrides_layer (PyDict d)) with
    | Some v => Some v
    | None => dict_get k (config_files_data s1)
    end.
Proof.
  intros NE P1 ND k.
  destruct (frames_parse_config_files H fuel _ _ _ _ P1) as (_ & C1 & _ & A1).
  assert (G : config_files_data
                (snd (parse_args H fuel argl (PyDict d) self)) =
              assoc_update key_eqb (config_files_data s1) d).
  { rewrite parse_args_shape, resolve_phase_steps by exact NE.
    unfold bind at 1. rewrite P1. unfold bind at 1.
    destruct (process_default_namespace (PyDict d) s1) as [[dn|e] s2] eqn:P2;
      pose proof (process_default_namespace_dict d s1 _ s2 ND P2) as D2.
    - rewrite argparse_plain_run
        by (unfold plain; rewrite D2; simpl; rewrite C1;
            apply plain_tokens_plain).
      destruct (rbind _ _); rewrite D2; reflexivity.
    - rewrite D2. reflexivity. }
  rewrite G. unfold dict_get. simpl overrides_layer. apply assoc_update_layer.
Qed.

Lemma overrides_persist_witness :
  fst (parse_args demo_host 1 (Some ["--unknown"])
         (PyDict [(KStr "mode", PyStr "eval")]) demo_parser) =
    Raise SystemExit /\
  dict_get "mode"
    (config_files_data
       (snd (parse_args demo_host 1 (Some ["--unknown"])
               (PyDict [(KStr "mode", PyStr "eval")]) demo_parser))) =
  match dict_get "mode"
          (overrides_layer (PyDict [(KStr "mode", PyStr "eval")]))
  with
  | Some v => Some v
  | None => dict_get "mode" (config_files_data demo_parser)
  end.
Proof.
  split; [reflexivity|].
  apply (overrides_persist demo_host 1 (Some ["--unknown"])
           [(KStr "mode", PyStr "eval")] demo_parser demo_parser).
  - simpl. intuition discriminate.
  - reflexivity.
  - discriminate.
Defined.

(** ** Lazy reads *)

Lemma cached_reads H fuel name self cached :
  args self = Some cached ->
  __getattr__ H fuel name self =
    (match assoc_get String.eqb name cached with
     | Some a => Ok a
     | None => Raise KeyError
     end, self) /\
  get_argument_dict H fuel self = (Ok cached, self).
Proof.
  intros C. unfold __getattr__, get_argument_dict, lookup_cached.
  unfold bind, get, ret, raise. rewrite C. simpl. rewrite C. split.
  - now destruct (assoc_get String.eqb name cached).
  - reflexivity.
Qed.

Lemma parse_args_ok_cached H fuel argl ov self ns self' :
  parse_args H fuel argl ov self = (Ok ns, self') -> args self' = Some ns.
Proof.
  rewrite parse_args_shape.
  destruct (resolve_phase H fuel argl ov self) as [[n|e] s3];
    intros E; inversion E; reflexivity.
Qed.

(** X17: the mapping a successful [parse_args] returns is the cached
    result from then on: every lazy read answers from it ([KeyError] for
    a name it does not have) and [get_argument_dict] returns it, without
    parsing again and without changing the instance. *)
Theorem parse_args_caches_result H fuel argl ov self ns self' :
  parse_args H fuel argl ov self = (Ok ns, self') ->
  args self' = Some ns /\
  forall fuel' name,
    __getattr__ H fuel' name self' =
      (match assoc_get String.eqb name ns with
       | Some a => Ok a
       | None => Raise KeyError
       end, self') /\
    get_argument_dict H fuel' self' = (Ok ns, self').
Proof.
  intros E. pose proof (parse_args_ok_cached _ _ _ _ _ _ _ E) as C.
  split; [exact C|]. intros fuel' name. now apply cached_reads.
Qed.

Lemma parse_args_caches_result_witness :
  let r := parse_args demo_host 1 (Some ["--rate"; "9"]) PyNone demo_parser in
  args (snd r) =
    Some [("rate", Val (PyStr "9")); ("mode", Val (PyStr "train"))] /\
  forall fuel' name,
    __getattr__ demo_host fuel' name (snd r) =
      (match assoc_get String.eqb name
               [("rate", Val (PyStr "9")); ("mode", Val (PyStr "train"))]
       with
       | Some a => Ok a
       | None => Raise KeyError
       end, snd r) /\
    get_argument_dict demo_host fuel' (snd r) =
      (Ok [("rate", Val (PyStr "9")); ("mode", Val (PyStr "train"))], snd r).
Proof.
  intros r.
  apply (parse_args_caches_result demo_host 1 (Some ["--rate"; "9"]) PyNone
           demo_parser).
  reflexivity.
Defined.

(** X18: a lazy read that returned a value returns the same value when
    it is repeated, and the repeated read neither parses nor changes the
    instance: the arguments are parsed once, by the first read. *)
Theorem lazy_read_idempotent H fuel name self v self1 :
  __getattr__ H fuel name self = (Ok v, self1) ->
  forall fuel',
    __getattr__ H fuel' name self1 = (Ok v, self1).
Proof.
  intros E fuel'.
  assert (C : exists cached,
            args self1 = Some cached /\
            assoc_get String.eqb name cached = Some v).
  { unfold __getattr__ in E. apply bind_ok in E.
    destruct E as (s & s0 & G & E). inversion G; subst s0 s. clear G.
    apply bind_ok in E. destruct E as ([] & s2 & P & L).
    assert (A2 : exists cached, args s2 = Some cached).
    { destruct (args self) as [c|] eqn:A.
      - inversion P; subst. now exists c.
      - apply bind_ok in P. destruct P as (ns & s3 & P & R).
        inversion R; subst. exists ns.
        now apply (parse_args_ok_cached _ _ _ _ _ _ _ P). }
    destruct A2 as (cached & A2). exists cached.
    unfold lookup_cached, bind, get in L. rewrite A2 in L.
    destruct (assoc_get String.eqb name cached) as [a|];
      inversion L; subst; auto. }
  destruct C as (cached & A & G).
  rewrite (proj1 (cached_reads H fuel' name self1 cached A)). now rewrite G.
Qed.

Lemma lazy_read_idempotent_witness :
  __getattr__ demo_host 0 "rate"
    (snd (__getattr__ demo_host 1 "rate" demo_parser)) =
  (Ok (Val (PyStr "0.1")),
   snd (__getattr__ demo_host 1 "rate" demo_parser)).
Proof.
  apply (lazy_read_idempotent demo_host 1 "rate" demo_parser).
  reflexivity.
Defined.

(** X19: what [get_argument_dict] returns is what the lazy reads answer
    from: after it, reading a name gives the entry of that name in the
    returned mapping, [KeyError] if there is none, and a second
    [get_argument_dict] returns the same mapping. *)
Theorem get_argument_dict_agrees H fuel self d self1 :
  get_argument_dict H fuel self = (Ok d, self1) ->
  forall fuel' name,
    __getattr__ H fuel' name self1 =
      (match assoc_get String.eqb name d with
       | Some a => Ok a
       | None => Raise KeyError
       end, self1) /\
    get_argument_dict H fuel' self1 = (Ok d, self1).
Proof.
  intros E fuel' name.
  assert (A : args self1 = Some d).
  { unfold get_argument_dict in E. apply bind_ok in E.
    destruct E as (s & s0 & G & E). inversion G; subst s0 s. clear G.
    apply bind_ok in E. destruct E as ([] & s2 & P & L).
    unfold bind, get in L.
    destruct (args s2) as [c|] eqn:A2; inversion L; subst. exact A2. }
  now apply cached_reads.
Qed.

Lemma get_argument_dict_agrees_witness :
  __getattr__ demo_host 0 "mode"
    (snd (get_argument_dict demo_host 1 demo_parser)) =
    (match assoc_get String.eqb "mode"
             [("rate", Val (PyStr "0.1")); ("mode", Val (PyStr "train"))]
     with
     | Some a => Ok a
     | None => Raise KeyError
     end, snd (get_argument_dict demo_host 1 demo_parser)) /\
  get_argument_dict demo_host 0
    (snd (get_argument_dict demo_host 1 demo_parser)) =
    (Ok [("rate", Val (PyStr "0.1")); ("mode", Val (PyStr "train"))],
     snd (get_argument_dict demo_host 1 demo_parser)).
Proof.
  apply (get_argument_dict_agrees demo_host 1 demo_parser).
  reflexivity.
Defined.

(** ** The notebook host *)

(** X20: when an argument of the process contains [jupyter], in whatever
    case, at the time the resolver is created, a [parse_args] without an
    explicit token list parses no token at all: the command line of the
    notebook host is left aside. *)
Theorem notebook_host_ignores_argv H prefix_chars acts fuel ov arg :
  In arg (argv H) ->
  contains "jupyter" (lower arg) = true ->
  parse_args H fuel None ov (set_actions acts (init H prefix_chars)) =
  parse_args H fuel (Some []) ov (set_actions acts (init H prefix_chars)).
Proof.
  intros I C. rewrite !parse_args_shape.
  rewrite (resolve_phase_tokens H fuel None).
  unfold invocation_tokens. simpl is_jupyter_notebook.
  assert (J : existsb (fun a => contains "jupyter" (lower a)) (argv H) = true).
  { apply existsb_exists. now exists arg. }
  now rewrite J.
Qed.

Lemma notebook_host_ignores_argv_witness :
  let H :=
    {| files := demo_files;
       pickle_load := fun _ => Raise UnpicklingError;
       yaml_load := fun c => Ok (PyStr c);
       json_decode := fun _ => Raise ValueError;
       argv := ["-m"; "Jupyter_Kernel"; "--unknown"] |} in
  parse_args H 1 None PyNone (set_actions [rate_action] (init H None)) =
  parse_args H 1 (Some []) PyNone (set_actions [rate_action] (init H None)).
Proof.
  intros H.
  apply (notebook_host_ignores_argv H None [rate_action] 1 PyNone
           "Jupyter_Kernel").
  - simpl. right. left. reflexivity.
  - reflexivity.
Defined.

(** ** Attribute assignment *)

Lemma assoc_set_keys {V} k (v : V) : forall d,
  assoc_mem String.eqb k d = true ->
  map fst (assoc_set String.eqb k v d) = map fst d.
Proof.
  induction d as [|[k' v'] r IH]; intros M; [discriminate|].
  unfold assoc_mem in M. simpl in *.
  destruct (String.eqb k k'); [reflexivity|].
  simpl. f_equal. now apply IH.
Qed.

(** X21: an assignment [resolver.name = value] from outside stores the
    attribute and does not touch the config data.  Before the first
    resolution nothing is cached and nothing gets cached by it.  After a
    resolution the cached mapping keeps its keys; the entry [name], if it
    has one, becomes [value] and every other entry stays. *)
Theorem setattr_write_through name v o o' :
  __setattr__ name v o = Some o' ->
  own o' = assoc_set String.eqb name v (own o) /\
  config_files_data (resolver o') = config_files_data (resolver o) /\
  match args (resolver o) with
  | None => args (resolver o') = None
  | Some cached =>
      exists cached',
        args (resolver o') = Some cached' /\
        map fst cached' = map fst cached /\
        forall k,
          assoc_get String.eqb k cached' =
          if (String.eqb k name && assoc_mem String.eqb name cached)%bool
          then Some (Val v)
          else assoc_get String.eqb k cached
  end.
Proof.
  unfold __setattr__. destruct (str_in name field_names); [discriminate|].
  destruct (args (resolver o)) as [cached|] eqn:A.
  - destruct (assoc_mem String.eqb name cached) eqn:M;
      intros E; inversion E; subst; simpl; repeat split.
    + exists (assoc_set String.eqb name (Val v) cached).
      split; [reflexivity|]. split; [now apply assoc_set_keys|].
      intros k. rewrite (assoc_get_set String.eqb str_eqb_spec).
      now rewrite andb_true_r.
    + exists cached. split; [exact A|]. split; [reflexivity|].
      intros k. now rewrite andb_false_r.
  - intros E; inversion E; subst; simpl; repeat split. exact A.
Qed.

Lemma setattr_write_through_witness :
  let cached := [("rate", Val (PyStr "9")); ("mode", Val (PyStr "train"))] in
  let o := {| resolver := set_args (Some cached) demo_parser; own := [] |} in
  let o' :=
    {| resolver :=
         set_args (Some [("rate", Val (PyInt 3));
                         ("mode", Val (PyStr "train"))]) demo_parser;
       own := [("rate", PyInt 3)] |} in
  own o' = assoc_set String.eqb "rate" (PyInt 3) (own o) /\
  config_files_data (resolver o') = config_files_data (resolver o) /\
  match args (resolver o) with
  | None => args (resolver o') = None
  | Some cached =>
      exists cached',
        args (resolver o') = Some cached' /\
        map fst cached' = map fst cached /\
        forall k,
          assoc_get String.eqb k cached' =
          if (String.eqb k "rate" && assoc_mem String.eqb "rate" cached)%bool
          then Some (Val (PyInt 3))
          else assoc_get String.eqb k cached
  end.
Proof.
  intros cached o o'.
  apply (setattr_write_through "rate" (PyInt 3) o o').
  reflexivity.
Defined.

(** ** Any number of construction calls *)

Lemma Flags_calls_stored H calls : forall p o,
  instance p = Some o ->
  Flags_calls H calls p = (repeat o (length calls), p).
Proof.
  induction calls as [|a rest IH]; intros p o I; simpl.
  - reflexivity.
  - unfold Flags. rewrite I. now rewrite (IH p o I).
Qed.

(** X22: however many times [Flags] is called and with whatever
    arguments, every call returns the object the first call created and
    only that one object is ever added to the process; it is built from
    the arguments of the first call. *)
Theorem Flags_calls_one_instance H a calls p :
  instance p = None ->
  Flags_calls H (a :: calls) p =
  (repeat (length (objects p)) (S (length calls)),
   {| objects := (objects p ++ [init H a])%list;
      instance := Some (length (objects p)) |}).
Proof.
  intros N. simpl. unfold Flags at 1. rewrite N.
  now rewrite (Flags_calls_stored H calls _ (length (objects p))).
Qed.

Lemma Flags_calls_one_instance_witness :
  Flags_calls demo_host [Some ["+"]; None; Some ["@"; "%"]] Flags_start =
  ([0; 0; 0],
   {| objects := [init demo_host (Some ["+"])]; instance := Some 0 |}).
Proof.
  apply (Flags_calls_one_instance demo_host (Some ["+"])
           [None; Some ["@"; "%"]] Flags_start).
  reflexivity.
Defined.
